(** * Library-management data access layer: model.py, repository.py, controller.py

    A shallow embedding of the record classes, of the data access gateway
    ([Repository]) and of [BookController], together with the properties of
    the specification that concern them.

    Python values are dynamically typed, so record fields and tuple cells hold
    a [value].  A call that can raise returns a [result]; a method that talks
    to the database is a computation in the state-and-exception monad [M]. *)

From Stdlib Require Import ZArith List String Bool Lia.
Import ListNotations.
Open Scope string_scope.
Open Scope Z_scope.

(** ** Python values, exceptions and call binding *)

Inductive value : Type :=
| VNone
| VInt (n : Z)
| VStr (s : string).

(** A Python tuple, as the database cursor returns one per result row. *)
Definition tuple : Type := list value.

Definition value_eq_dec (a b : value) : {a = b} + {a <> b}.
Proof.
  decide equality; [apply Z.eq_dec | apply string_dec].
Defined.

Definition tuple_eq_dec : forall a b : tuple, {a = b} + {a <> b} :=
  list_eq_dec value_eq_dec.

(** Why the arguments of a call cannot be bound to the parameters of the
    function called. *)
Inductive bind_error : Type :=
| unexpected_keyword (k : string)
| multiple_values (k : string)
| too_many_positional (takes given : nat)
| missing_arguments (ks : list string).

(** The exceptions that occur in the modelled code; all of them derive from
    Python's [Exception], so [except Exception] catches each of them. *)
Inductive exn : Type :=
| TypeError (why : bind_error)
| IndexError
| RuntimeError (msg : string)
| StorageError (msg : string).

Inductive result (A : Type) : Type :=
| Ok (a : A)
| Raise (e : exn).
Arguments Ok {A} a.
Arguments Raise {A} e.

(** [t[i]] on a tuple. *)
Definition getitem (t : tuple) (i : nat) : result value :=
  match nth_error t i with
  | Some v => Ok v
  | None => Raise IndexError
  end.

(** *** Binding the arguments of a call to named parameters

    One slot per parameter, in declaration order.  Positional arguments fill
    the slots from the left, keyword arguments fill the slot of their name. *)
Definition slots (A : Type) : Type := list (string * option A).

Fixpoint positional {A} (params : list string) (args : list A) : slots A :=
  match params with
  | [] => []
  | p :: ps =>
      match args with
      | [] => (p, None) :: positional ps []
      | a :: args' => (p, Some a) :: positional ps args'
      end
  end.

Fixpoint set_keyword {A} (k : string) (v : A) (s : slots A) : result (slots A) :=
  match s with
  | [] => Raise (TypeError (unexpected_keyword k))
  | (p, cur) :: rest =>
      if String.eqb p k then
        match cur with
        | Some _ => Raise (TypeError (multiple_values k))
        | None => Ok ((p, Some v) :: rest)
        end
      else
        match set_keyword k v rest with
        | Raise e => Raise e
        | Ok rest' => Ok ((p, cur) :: rest')
        end
  end.

Fixpoint set_keywords {A} (kwargs : list (string * A)) (s : slots A) : result (slots A) :=
  match kwargs with
  | [] => Ok s
  | (k, v) :: kwargs' =>
      match set_keyword k v s with
      | Raise e => Raise e
      | Ok s' => set_keywords kwargs' s'
      end
  end.

Fixpoint missing {A} (s : slots A) : list string :=
  match s with
  | [] => []
  | (p, None) :: rest => p :: missing rest
  | (_, Some _) :: rest => missing rest
  end.

Fixpoint filled {A} (s : slots A) : list A :=
  match s with
  | [] => []
  | (_, None) :: rest => filled rest
  | (_, Some v) :: rest => v :: filled rest
  end.

(** The order of the checks is CPython's: keywords, then the number of
    positional arguments, then the parameters left without a value.  The
    counts of the message include [self]. *)
Definition bind_arguments {A} (params : list string) (args : list A)
    (kwargs : list (string * A)) : result (list A) :=
  match set_keywords kwargs (positional params args) with
  | Raise e => Raise e
  | Ok s =>
      if (List.length params <? List.length args)%nat then
        Raise (TypeError (too_many_positional (S (List.length params)) (S (List.length args))))
      else
        match missing s with
        | [] => Ok (filled s)
        | ks => Raise (TypeError (missing_arguments ks))
        end
  end.

(** ** model.py: the three dataclasses

    [@dataclass] generates an [__init__] whose parameters are the fields in
    declaration order; the annotations are not enforced. *)

Module Book.

Record t : Type := mk {
  id : value;
  title : value;
  isbn : value;
  pub_year : value;
  genre_id : value;
  publisher_id : value
}.

Definition fields : list string :=
  ["id"; "title"; "isbn"; "pub_year"; "genre_id"; "publisher_id"].

(** The generated [__init__] of [Book], called with positional and keyword
    arguments.  The last branch is dead code: a successful
    binding yields one value per field ([bind_arguments_length]). *)
Definition init (args : list value) (kwargs : list (string * value)) : result t :=
  match bind_arguments fields args kwargs with
  | Raise e => Raise e
  | Ok [a; b; c; d; e; f] => Ok (mk a b c d e f)
  | Ok _ => Raise (TypeError (missing_arguments fields))
  end.

End Book.

Module Publisher.

Record t : Type := mk {
  id : value;
  name : value;
  address : value;
  phone : value;
  email : value
}.

Definition fields : list string := ["id"; "name"; "address"; "phone"; "email"].

Definition init (args : list value) (kwargs : list (string * value)) : result t :=
  match bind_arguments fields args kwargs with
  | Raise e => Raise e
  | Ok [a; b; c; d; e] => Ok (mk a b c d e)
  | Ok _ => Raise (TypeError (missing_arguments fields))
  end.

End Publisher.

Module Member.

Record t : Type := mk {
  id : value;
  first_name : value;
  last_name : value;
  address : value;
  email : value;
  membership_date : value
}.

Definition fields : list string :=
  ["id"; "first_name"; "last_name"; "address"; "email"; "membership_date"].

Definition init (args : list value) (kwargs : list (string * value)) : result t :=
  match bind_arguments fields args kwargs with
  | Raise e => Raise e
  | Ok [a; b; c; d; e; f] => Ok (mk a b c d e f)
  | Ok _ => Raise (TypeError (missing_arguments fields))
  end.

End Member.

(** ** The storage: schema and SQL

    Modelled from the spec: the schema and the [Database] class (database.py)
    are not among the sources.  The tables are those of the specification's
    storage interface, with the columns that the SQL text of repository.py
    names; a table is the list of its rows in storage order, and a statement
    without ORDER BY returns rows in that order.  A cell holds a [value],
    [VNone] standing for NULL. *)

Record book_row : Type := mk_book {
  b_book_id : value;
  b_title : value;
  b_isbn : value;
  b_pub_year : value;
  b_genre_id : value;
  b_publisher_id : value
}.

Record book_author_row : Type := mk_book_author {
  ba_book_id : value;
  ba_author_id : value
}.

Record author_row : Type := mk_author {
  a_author_id : value;
  a_name : value
}.

Record publisher_row : Type := mk_publisher {
  p_publisher_id : value;
  p_name : value;
  p_address : value;
  p_phone : value;
  p_email : value
}.

Record members_row : Type := mk_members {
  m_member_id : value;
  m_first_name : value;
  m_last_name : value;
  m_address : value;
  m_email : value;
  m_membership_date : value
}.

Record loan_row : Type := mk_loan {
  l_loan_id : value;
  l_copy_id : value;
  l_member_id : value;
  l_staff_id : value;
  l_librarian_id : value;
  l_issue_date : value;
  l_due_date : value;
  l_return_date : value
}.

Record book_copy_row : Type := mk_book_copy {
  bc_copy_id : value;
  bc_book_id : value
}.

(** [book_seq] is the key that the storage gives to the next inserted book
    (the insert of [add_book] names no [book_id]). *)
Record Tables : Type := mk_tables {
  book : list book_row;
  book_author : list book_author_row;
  author : list author_row;
  publisher : list publisher_row;
  members : list members_row;
  loan : list loan_row;
  book_copy : list book_copy_row;
  book_seq : Z
}.

Definition set_book (bs : list book_row) (t : Tables) : Tables :=
  mk_tables bs (book_author t) (author t) (publisher t) (members t) (loan t)
    (book_copy t) (book_seq t).

Definition set_book_seq (n : Z) (t : Tables) : Tables :=
  mk_tables (book t) (book_author t) (author t) (publisher t) (members t) (loan t)
    (book_copy t) n.

(** SQL [=] as a search condition: true only for two equal non-NULL operands.
    Strings compare exactly (a binary collation); operands of different types
    are not coerced and compare as different. *)
Definition sql_eq (a b : value) : bool :=
  match a, b with
  | VInt x, VInt y => Z.eqb x y
  | VStr x, VStr y => String.eqb x y
  | _, _ => false
  end.

(** [l JOIN r ON on]: nested loops, left rows outermost. *)
Definition inner_join {A B} (on : A -> B -> bool) (l : list A) (r : list B)
    : list (A * B) :=
  flat_map (fun a => map (pair a) (filter (on a) r)) l.

(** [l LEFT JOIN r ON on]: a left row without partner is kept once, with NULLs
    ([None]) on the right. *)
Definition left_join {A B} (on : A -> B -> bool) (l : list A) (r : list B)
    : list (A * option B) :=
  flat_map
    (fun a =>
       match filter (on a) r with
       | [] => [(a, None)]
       | bs => map (fun b => (a, Some b)) bs
       end) l.

(** The SELECT statements of repository.py, with their parameters. *)
Inductive query : Type :=
| select_books_with_author
| select_book_by_title (title : value)
| select_books_by_author (name : value)
| select_book_by_author_limit_1 (name : value)
| select_publisher
| select_members
| select_loan
| select_members_by_book (book_id : value)
| select_distinct_members_with_loan.

(** The INSERT, DELETE and UPDATE statements of repository.py. *)
Inductive command : Type :=
| insert_book (title isbn pub_year genre_id publisher_id : value)
| delete_book (book_id : value)
| update_book_set (title isbn pub_year genre_id publisher_id book_id : value).

Inductive statement : Type :=
| Fetch (q : query)
| Execute (c : command).

(** SELECT book_id, title, isbn, pub_year, genre_id, publisher_id *)
Definition book_columns (b : book_row) : tuple :=
  [b_book_id b; b_title b; b_isbn b; b_pub_year b; b_genre_id b; b_publisher_id b].

(** SELECT b.book_id, b.title, a.name AS author, b.isbn, b.pub_year,
    b.genre_id, b.publisher_id *)
Definition book_with_author_columns
    (r : book_row * option book_author_row * option author_row) : tuple :=
  let '(b, _, a) := r in
  [b_book_id b; b_title b;
   match a with Some a => a_name a | None => VNone end;
   b_isbn b; b_pub_year b; b_genre_id b; b_publisher_id b].

Definition publisher_columns (p : publisher_row) : tuple :=
  [p_publisher_id p; p_name p; p_address p; p_phone p; p_email p].

Definition members_columns (m : members_row) : tuple :=
  [m_member_id m; m_first_name m; m_last_name m; m_address m; m_email m;
   m_membership_date m].

Definition loan_columns (l : loan_row) : tuple :=
  [l_loan_id l; l_copy_id l; l_member_id l; l_staff_id l; l_librarian_id l;
   l_issue_date l; l_due_date l; l_return_date l].

(** SELECT m.first_name, m.last_name, b.title, l.issue_date, l.due_date,
    l.return_date *)
Definition borrower_columns
    (r : members_row * loan_row * book_copy_row * book_row) : tuple :=
  let '(m, l, _, b) := r in
  [m_first_name m; m_last_name m; b_title b; l_issue_date l; l_due_date l;
   l_return_date l].

(** SELECT DISTINCT m.member_id, m.first_name, m.last_name *)
Definition member_name_columns (r : members_row * loan_row) : tuple :=
  let '(m, _) := r in [m_member_id m; m_first_name m; m_last_name m].

(** FROM book b LEFT JOIN book_author ba ON b.book_id = ba.book_id
    LEFT JOIN author a ON ba.author_id = a.author_id *)
Definition books_left_join_authors (t : Tables)
    : list (book_row * option book_author_row * option author_row) :=
  left_join
    (fun (l : book_row * option book_author_row) a =>
       match snd l with
       | Some ba => sql_eq (ba_author_id ba) (a_author_id a)
       | None => false
       end)
    (left_join (fun b ba => sql_eq (b_book_id b) (ba_book_id ba))
       (book t) (book_author t))
    (author t).

(** FROM book b JOIN book_author ba ON b.book_id = ba.book_id
    JOIN author a ON ba.author_id = a.author_id WHERE a.name = %s *)
Definition books_of_author (name : value) (t : Tables) : list book_row :=
  map (fun r : book_row * book_author_row * author_row => fst (fst r))
    (filter (fun r : book_row * book_author_row * author_row =>
               sql_eq (a_name (snd r)) name)
       (inner_join
          (fun (l : book_row * book_author_row) a =>
             sql_eq (ba_author_id (snd l)) (a_author_id a))
          (inner_join (fun b ba => sql_eq (b_book_id b) (ba_book_id ba))
             (book t) (book_author t))
          (author t))).

(** FROM members m JOIN loan l ON m.member_id = l.member_id *)
Definition members_join_loan (t : Tables) : list (members_row * loan_row) :=
  inner_join (fun m l => sql_eq (m_member_id m) (l_member_id l))
    (members t) (loan t).

(** FROM members m JOIN loan l ON m.member_id = l.member_id
    JOIN book_copy bc ON l.copy_id = bc.copy_id
    JOIN book b ON bc.book_id = b.book_id WHERE b.book_id = %s *)
Definition borrowers_of_book (book_id : value) (t : Tables)
    : list (members_row * loan_row * book_copy_row * book_row) :=
  filter
    (fun r : members_row * loan_row * book_copy_row * book_row =>
       sql_eq (b_book_id (snd r)) book_id)
    (inner_join
       (fun (l : members_row * loan_row * book_copy_row) b =>
          sql_eq (bc_book_id (snd l)) (b_book_id b))
       (inner_join
          (fun (l : members_row * loan_row) bc =>
             sql_eq (l_copy_id (snd l)) (bc_copy_id bc))
          (members_join_loan t) (book_copy t))
       (book t)).

(** The rows that a SELECT statement returns. *)
Definition rows_of (q : query) (t : Tables) : list tuple :=
  match q with
  | select_books_with_author =>
      map book_with_author_columns (books_left_join_authors t)
  | select_book_by_title title =>
      map book_columns (filter (fun b => sql_eq (b_title b) title) (book t))
  | select_books_by_author name =>
      map book_columns (books_of_author name t)
  | select_book_by_author_limit_1 name =>
      firstn 1 (map book_columns (books_of_author name t))
  | select_publisher => map publisher_columns (publisher t)
  | select_members => map members_columns (members t)
  | select_loan => map loan_columns (loan t)
  | select_members_by_book book_id =>
      map borrower_columns (borrowers_of_book book_id t)
  | select_distinct_members_with_loan =>
      nodup tuple_eq_dec (map member_name_columns (members_join_loan t))
  end.

(** UPDATE book SET title, isbn, pub_year, genre_id, publisher_id on one row. *)
Definition overwrite (title isbn pub_year genre_id publisher_id : value)
    (b : book_row) : book_row :=
  mk_book (b_book_id b) title isbn pub_year genre_id publisher_id.

(** The tables after an INSERT, DELETE or UPDATE statement. *)
Definition apply (c : command) (t : Tables) : Tables :=
  match c with
  | insert_book title isbn pub_year genre_id publisher_id =>
      set_book_seq (book_seq t + 1)
        (set_book
           (book t ++
            [mk_book (VInt (book_seq t)) title isbn pub_year genre_id publisher_id])
           t)
  | delete_book book_id =>
      set_book (filter (fun b => negb (sql_eq (b_book_id b) book_id)) (book t)) t
  | update_book_set title isbn pub_year genre_id publisher_id book_id =>
      set_book
        (map (fun b =>
                if sql_eq (b_book_id b) book_id
                then overwrite title isbn pub_year genre_id publisher_id b
                else b)
           (book t))
        t
  end.

(** The state of a [Database] object: the tables behind the connection and
    the statements sent through it so far, oldest first. *)
Record Database : Type := mk_database {
  tables : Tables;
  issued : list statement
}.

(** ** Computations on the database: state and exceptions *)

Definition M (A : Type) : Type := Database -> result A * Database.

Definition ret {A} (a : A) : M A := fun w => (Ok a, w).

Definition raise {A} (e : exn) : M A := fun w => (Raise e, w).

Definition bind {A B} (m : M A) (k : A -> M B) : M B :=
  fun w =>
    match m w with
    | (Ok a, w') => k a w'
    | (Raise e, w') => (Raise e, w')
    end.

(** A call that raises or returns without touching the database. *)
Definition lift {A} (r : result A) : M A := fun w => (r, w).

(** [try: body  except Exception as e: handler e]. *)
Definition try_except {A} (body : M A) (handler : exn -> M A) : M A :=
  fun w =>
    match body w with
    | (Ok a, w') => (Ok a, w')
    | (Raise e, w') => handler e w'
    end.

Declare Scope py_scope.
Delimit Scope py_scope with py.
Notation "x <- m ;; k" := (bind m (fun x => k))
  (at level 100, m at next level, right associativity) : py_scope.
Open Scope py_scope.

(** [[f x for x in xs]]: the first exception aborts the comprehension. *)
Fixpoint comprehension {A B} (f : A -> M B) (xs : list A) : M (list B) :=
  match xs with
  | [] => ret []
  | x :: xs' =>
      y <- f x ;;
      ys <- comprehension f xs' ;;
      ret (y :: ys)
  end.

(** ** database.py: the [Database] object

    Modelled from the spec: database.py is not among the sources.  Its two
    methods run one statement each.  Whether the storage runs a statement or
    refuses it (connectivity loss, malformed query, a violated constraint) is
    not decided by the code under study: it is the parameter [fault], which
    gives the exception that the call raises, if any.  A statement that is
    refused leaves the tables as they were. *)

Section Storage.

Variable fault : statement -> Tables -> option exn.

Definition fetch_results (q : query) : M (list tuple) :=
  fun w =>
    let w' := mk_database (tables w) (issued w ++ [Fetch q]) in
    match fault (Fetch q) (tables w) with
    | Some e => (Raise e, w')
    | None => (Ok (rows_of q (tables w)), w')
    end.

Definition execute_query (c : command) : M unit :=
  fun w =>
    match fault (Execute c) (tables w) with
    | Some e => (Raise e, mk_database (tables w) (issued w ++ [Execute c]))
    | None => (Ok tt, mk_database (apply c (tables w)) (issued w ++ [Execute c]))
    end.

End Storage.

(** ** repository.py: the data access gateway

    The calls to the logger are left out: no property below observes the log. *)

Module Repository.

Section Methods.

Variable fault : statement -> Tables -> option exn.

(** [Book(row[0], row[1], row[2], row[3], row[4], row[5], row[6])] *)
Definition book_of_joined_row (row : tuple) : M Book.t :=
  r0 <- lift (getitem row 0) ;;
  r1 <- lift (getitem row 1) ;;
  r2 <- lift (getitem row 2) ;;
  r3 <- lift (getitem row 3) ;;
  r4 <- lift (getitem row 4) ;;
  r5 <- lift (getitem row 5) ;;
  r6 <- lift (getitem row 6) ;;
  lift (Book.init [r0; r1; r2; r3; r4; r5; r6] []).

Definition fetchall_books : M (list Book.t) :=
  try_except
    (results <- fetch_results fault select_books_with_author ;;
     comprehension book_of_joined_row results)
    (fun _ => ret []).

Definition add_book (book : Book.t) : M unit :=
  let query :=
    insert_book (Book.title book) (Book.isbn book) (Book.pub_year book)
      (Book.genre_id book) (Book.publisher_id book) in
  try_except
    (execute_query fault query)
    (fun _ => raise (RuntimeError "Failed to add book.")).

Definition delete_book_by_id (book_id : value) : M unit :=
  try_except
    (execute_query fault (delete_book book_id))
    (fun _ => raise (RuntimeError "Failed to delete book.")).

Definition update_book (book : Book.t) : M unit :=
  let query :=
    update_book_set (Book.title book) (Book.isbn book) (Book.pub_year book)
      (Book.genre_id book) (Book.publisher_id book) (Book.id book) in
  try_except
    (execute_query fault query)
    (fun _ => raise (RuntimeError "Failed to update book.")).

(** The first row unpacked into a [Book], or [None] when [result] is empty. *)
Definition first_book (result : list tuple) : M (option Book.t) :=
  match result with
  | [] => ret None
  | row :: _ => b <- lift (Book.init row []) ;; ret (Some b)
  end.

Definition list_book_by_name (book_name : value) : M (option Book.t) :=
  try_except
    (result <- fetch_results fault (select_book_by_title book_name) ;;
     first_book result)
    (fun _ => ret None).

Definition get_books_by_author (author_name : value) : M (list Book.t) :=
  try_except
    (results <- fetch_results fault (select_books_by_author author_name) ;;
     comprehension (fun row => lift (Book.init row [])) results)
    (fun _ => ret []).

Definition find_books_by_author_name (author_name : value) : M (option Book.t) :=
  try_except
    (result <- fetch_results fault (select_book_by_author_limit_1 author_name) ;;
     first_book result)
    (fun _ => ret None).

Definition get_publisher : M (list Publisher.t) :=
  try_except
    (results <- fetch_results fault select_publisher ;;
     comprehension (fun row => lift (Publisher.init row [])) results)
    (fun _ => ret []).

Definition get_all_members : M (list Member.t) :=
  try_except
    (results <- fetch_results fault select_members ;;
     comprehension (fun row => lift (Member.init row [])) results)
    (fun _ => ret []).

Definition list_all_loan : M (list tuple) :=
  try_except (fetch_results fault select_loan) (fun _ => ret []).

(** [if not book]: an instance of [Book] is truthy, only [None] is not. *)
Definition list_all_members_by_book (book_name : value) : M (list tuple) :=
  book <- list_book_by_name book_name ;;
  match book with
  | None => ret []
  | Some book =>
      try_except
        (fetch_results fault (select_members_by_book (Book.id book)))
        (fun _ => ret [])
  end.

Definition list_members_borrowed_at_least_one_book : M (list tuple) :=
  try_except
    (fetch_results fault select_distinct_members_with_loan)
    (fun _ => ret []).

End Methods.

End Repository.

(** ** controller.py: [BookController] *)

Module BookController.

Section Methods.

Variable fault : statement -> Tables -> option exn.

Definition getall : M (list Book.t) :=
  try_except (Repository.fetchall_books fault) (fun _ => ret []).

(** The keyword arguments of the [Book] that [add_book] builds. *)
Definition add_book_kwargs (title author publisher isbn year_published : value)
    : list (string * value) :=
  [("id", VInt 0); ("title", title); ("author", author);
   ("publisher_id", publisher); ("isbn", isbn);
   ("year_published", year_published); ("genre_id", VInt 1)].

Definition add_book (title author publisher isbn year_published : value) : M unit :=
  book <- lift (Book.init []
                  (add_book_kwargs title author publisher isbn year_published)) ;;
  try_except
    (Repository.add_book fault book)
    (fun _ => raise (RuntimeError "Failed to add book.")).

(** The keyword arguments of the [Book] that [update_book] builds. *)
Definition update_book_kwargs (bid title author publisher_id isbn year : value)
    : list (string * value) :=
  [("id", bid); ("title", title); ("author", author);
   ("publisher_id", publisher_id); ("isbn", isbn);
   ("year_published", year); ("genre_id", VInt 1)].

Definition update_book (bid title author publisher_id isbn year : value) : M unit :=
  book <- lift (Book.init []
                  (update_book_kwargs bid title author publisher_id isbn year)) ;;
  try_except
    (Repository.update_book fault book)
    (fun _ => raise (RuntimeError "Failed to update book.")).

End Methods.

End BookController.

(** ** controller.py: [QueryController] *)

Module QueryController.

Section Methods.

Variable fault : statement -> Tables -> option exn.


Definition list_all_publisher : M (list Publisher.t) :=
  try_except (Repository.get_publisher fault) (fun _ => ret []).

Definition get_all_members : M (list Member.t) :=
  try_except (Repository.get_all_members fault) (fun _ => ret []).

Definition list_all_members_by_book (book_name : value) : M (list tuple) :=
  try_except (Repository.list_all_members_by_book fault book_name)
    (fun _ => ret []).

Definition get_all_loan : M (list tuple) :=
  try_except (Repository.list_all_loan fault) (fun _ => ret []).

Definition list_members_borrowed_at_least_one_book : M (list tuple) :=
  try_except (Repository.list_members_borrowed_at_least_one_book fault)
    (fun _ => ret []).

End Methods.

End QueryController.

(** ** Notions used by the properties *)

(** The [Book] that unpacking a row of the book table gives. *)
Definition book_of_row (b : book_row) : Book.t :=
  Book.mk (b_book_id b) (b_title b) (b_isbn b) (b_pub_year b) (b_genre_id b)
    (b_publisher_id b).

(** The first stored book with the given title. *)
Definition first_titled (title : value) (t : Tables) : option book_row :=
  find (fun b => sql_eq (b_title b) title) (book t).

(** A member has a loan row with the member's id. *)
Definition has_loan (t : Tables) (m : members_row) : Prop :=
  exists l, In l (loan t) /\ sql_eq (m_member_id m) (l_member_id l) = true.

(** All tables but [book] agree, and so does the key sequence. *)
Definition same_but_book (t t' : Tables) : Prop :=
  book_author t' = book_author t /\ author t' = author t /\
  publisher t' = publisher t /\ members t' = members t /\
  loan t' = loan t /\ book_copy t' = book_copy t /\ book_seq t' = book_seq t.

(** A read operation swallows the failure of its statement: it always
    returns, and it returns [empty] when the storage refuses [q]. *)
Definition swallows {A} (fault : statement -> Tables -> option exn)
    (q : query) (empty : A) (m : M A) : Prop :=
  forall w,
    (exists v, fst (m w) = Ok v) /\
    (forall e, fault (Fetch q) (tables w) = Some e -> fst (m w) = Ok empty).

(** A write operation raises [RuntimeError msg] exactly when the storage
    refuses [c], and returns otherwise. *)
Definition propagates (fault : statement -> Tables -> option exn)
    (c : command) (msg : string) (m : M unit) : Prop :=
  forall w,
    fst (m w) =
    match fault (Execute c) (tables w) with
    | Some _ => Raise (RuntimeError msg)
    | None => Ok tt
    end.

(** [list_book_by_name] gives the first stored book called [title], and
    [None] when no stored book is called so. *)
Definition finds_first_titled (fault : statement -> Tables -> option exn)
    (title : string) (w : Database) : Prop :=
  (forall before b after,
      book (tables w) = (before ++ b :: after)%list ->
      b_title b = VStr title ->
      (forall b', In b' before -> b_title b' <> VStr title) ->
      fst (Repository.list_book_by_name fault (VStr title) w)
      = Ok (Some (book_of_row b))) /\
  ((forall b, In b (book (tables w)) -> b_title b <> VStr title) ->
   fst (Repository.list_book_by_name fault (VStr title) w) = Ok None).

(** [list_all_members_by_book] gives no row when the title does not resolve,
    and the borrowers of the resolved book otherwise. *)
Definition lists_borrowers (fault : statement -> Tables -> option exn)
    (title : string) (w : Database) : Prop :=
  (fst (Repository.list_book_by_name fault (VStr title) w) = Ok None ->
   fst (Repository.list_all_members_by_book fault (VStr title) w) = Ok []) /\
  (forall found,
      fst (Repository.list_book_by_name fault (VStr title) w) = Ok (Some found) ->
      fst (Repository.list_all_members_by_book fault (VStr title) w)
      = Ok (map borrower_columns (borrowers_of_book (Book.id found) (tables w)))).

(** [list_members_borrowed_at_least_one_book] gives distinct tuples, each one
    the id and names of a member with a loan, and misses no such member. *)
Definition lists_members_with_loan (fault : statement -> Tables -> option exn)
    (w : Database) : Prop :=
  exists rows,
    fst (Repository.list_members_borrowed_at_least_one_book fault w) = Ok rows /\
    NoDup rows /\
    (forall row,
        In row rows ->
        exists m,
          In m (members (tables w)) /\ has_loan (tables w) m /\
          row = [m_member_id m; m_first_name m; m_last_name m]) /\
    (forall m,
        In m (members (tables w)) -> has_loan (tables w) m ->
        In [m_member_id m; m_first_name m; m_last_name m] rows).

(** The record that reading back a book stored under [key] gives: the
    inserted fields, and the key as id. *)
Definition stored_book (key : Z) (bk : Book.t) : Book.t :=
  Book.mk (VInt key) (Book.title bk) (Book.isbn bk) (Book.pub_year bk)
    (Book.genre_id bk) (Book.publisher_id bk).

(** Inserting [bk] and then fetching by its title gives [bk] back, under the
    key that the storage assigned. *)
Definition round_trips (fault : statement -> Tables -> option exn)
    (bk : Book.t) (title : string) (w : Database) : Prop :=
  Book.title bk = VStr title ->
  forall w',
    Repository.add_book fault bk w = (Ok tt, w') ->
    fst (Repository.list_book_by_name fault (VStr title) w')
    = Ok (Some (stored_book (book_seq (tables w)) bk)).

(** The fields of a record in declaration order. *)
Definition Book_astuple (bk : Book.t) : tuple :=
  [Book.id bk; Book.title bk; Book.isbn bk; Book.pub_year bk; Book.genre_id bk;
   Book.publisher_id bk].

Definition Publisher_astuple (p : Publisher.t) : tuple :=
  [Publisher.id p; Publisher.name p; Publisher.address p; Publisher.phone p;
   Publisher.email p].

Definition Member_astuple (m : Member.t) : tuple :=
  [Member.id m; Member.first_name m; Member.last_name m; Member.address m;
   Member.email m; Member.membership_date m].

(** The [Publisher] that unpacking a row of the publisher table gives. *)
Definition publisher_of_row (p : publisher_row) : Publisher.t :=
  Publisher.mk (p_publisher_id p) (p_name p) (p_address p) (p_phone p) (p_email p).

(** The [Member] that unpacking a row of the members table gives. *)
Definition member_of_row (m : members_row) : Member.t :=
  Member.mk (m_member_id m) (m_first_name m) (m_last_name m) (m_address m)
    (m_email m) (m_membership_date m).

(** The row that an UPDATE with the fields of [bk] leaves under the key of
    [bk]. *)
Definition row_of_book (bk : Book.t) : book_row :=
  mk_book (Book.id bk) (Book.title bk) (Book.isbn bk) (Book.pub_year bk)
    (Book.genre_id bk) (Book.publisher_id bk).

(** A book is written by an author called [name]. *)
Definition written_by (name : value) (t : Tables) (b : book_row) : Prop :=
  exists ba a,
    In ba (book_author t) /\ In a (author t) /\
    sql_eq (b_book_id b) (ba_book_id ba) = true /\
    sql_eq (ba_author_id ba) (a_author_id a) = true /\
    sql_eq (a_name a) name = true.

(** The keys of the book table are distinct. *)
Definition distinct_keys (t : Tables) : Prop :=
  NoDup (map b_book_id (book t)).


(** A computation leaves the tables as they are. *)
Definition reads_only {A} (m : M A) : Prop :=
  forall w, tables (snd (m w)) = tables w.

(** ** Example data: a small library *)

(** A storage that runs every statement. *)
Definition reachable : statement -> Tables -> option exn :=
  fun _ _ => None.

(** A storage that refuses every statement. *)
Definition unreachable : statement -> Tables -> option exn :=
  fun _ _ => Some (StorageError "connection lost").

(** A storage that runs the writes and refuses every read. *)
Definition reads_refused : statement -> Tables -> option exn :=
  fun s _ =>
    match s with
    | Fetch _ => Some (StorageError "connection lost")
    | Execute _ => None
    end.

(** A storage that resolves titles but refuses the borrowers query. *)
Definition loans_unreadable : statement -> Tables -> option exn :=
  fun s _ =>
    match s with
    | Fetch (select_members_by_book _) => Some (StorageError "connection lost")
    | _ => None
    end.

Definition dune : book_row :=
  mk_book (VInt 1) (VStr "Dune") (VStr "111") (VInt 1965) (VInt 1) (VInt 1).

Definition emma : book_row :=
  mk_book (VInt 2) (VStr "Emma") (VStr "222") (VInt 1815) (VInt 1) (VInt 2).

Definition ann : members_row :=
  mk_members (VInt 7) (VStr "Ann") (VStr "Lee") (VStr "Elm St") (VStr "ann@x")
    (VStr "2020-01-01").

Definition bob : members_row :=
  mk_members (VInt 8) (VStr "Bob") (VStr "Ray") (VStr "Oak St") (VStr "bob@x")
    (VStr "2021-01-01").

Definition library : Tables :=
  mk_tables
    [dune; emma]
    [mk_book_author (VInt 1) (VInt 10)]
    [mk_author (VInt 10) (VStr "Herbert")]
    [mk_publisher (VInt 1) (VStr "Ace") (VStr "NY") (VStr "555") (VStr "ace@ny")]
    [ann; bob]
    [mk_loan (VInt 100) (VInt 50) (VInt 7) (VInt 1) (VInt 1) (VStr "2024-01-01")
       (VStr "2024-01-15") VNone;
     mk_loan (VInt 101) (VInt 50) (VInt 7) (VInt 1) (VInt 1) (VStr "2024-02-01")
       (VStr "2024-02-15") VNone]
    [mk_book_copy (VInt 50) (VInt 1)]
    3.

Definition session : Database := mk_database library [].

(** A second book called Dune. *)
Definition another_dune : Book.t :=
  Book.mk (VInt 0) (VStr "Dune") (VStr "999") (VInt 2021) (VInt 1) (VInt 2).

Definition persuasion : Book.t :=
  Book.mk (VInt 0) (VStr "Persuasion") (VStr "333") (VInt 1817) (VInt 1) (VInt 2).

(** * Properties *)

(** ** Call binding *)

Lemma positional_length {A} (params : list string) (args : list A) :
  List.length (positional params args) = List.length params.
Proof.
  revert args; induction params as [|p ps IH]; intros args; simpl.
  - reflexivity.
  - destruct args; simpl; rewrite IH; reflexivity.
Qed.

Lemma set_keyword_length {A} k (v : A) s s' :
  set_keyword k v s = Ok s' -> List.length s' = List.length s.
Proof.
  revert s'; induction s as [|[p cur] rest IH]; intros s' H; simpl in H.
  - discriminate.
  - destruct (String.eqb p k).
    + destruct cur; [discriminate|]. injection H as <-. reflexivity.
    + destruct (set_keyword k v rest) as [rest'|]; [|discriminate].
      injection H as <-. simpl. rewrite (IH rest' eq_refl). reflexivity.
Qed.

Lemma set_keywords_length {A} (kwargs : list (string * A)) s s' :
  set_keywords kwargs s = Ok s' -> List.length s' = List.length s.
Proof.
  revert s; induction kwargs as [|[k v] kw IH]; intros s H; simpl in H.
  - injection H as <-. reflexivity.
  - destruct (set_keyword k v s) as [s1|] eqn:E; [|discriminate].
    rewrite (IH _ H). eapply set_keyword_length; eassumption.
Qed.

Lemma filled_length {A} (s : slots A) :
  missing s = [] -> List.length (filled s) = List.length s.
Proof.
  induction s as [|[p [v|]] rest IH]; simpl; intros H.
  - reflexivity.
  - rewrite IH by assumption. reflexivity.
  - discriminate.
Qed.

(** A successful binding gives one value per parameter. *)
Lemma bind_arguments_length {A} params (args : list A) kwargs vs :
  bind_arguments params args kwargs = Ok vs ->
  List.length vs = List.length params.
Proof.
  unfold bind_arguments.
  destruct (set_keywords kwargs (positional params args)) as [s|] eqn:E;
    [|discriminate].
  destruct (List.length params <? List.length args)%nat; [discriminate|].
  destruct (missing s) eqn:Em; [|discriminate].
  intros H; injection H as <-.
  rewrite (filled_length _ Em), (set_keywords_length _ _ _ E).
  apply positional_length.
Qed.

Lemma positional_names {A} (params : list string) (args : list A) :
  map fst (positional params args) = params.
Proof.
  revert args; induction params as [|p ps IH]; intros args; simpl.
  - reflexivity.
  - destruct args; simpl; rewrite IH; reflexivity.
Qed.

Lemma set_keyword_names {A} k (v : A) s s' :
  set_keyword k v s = Ok s' -> map fst s' = map fst s.
Proof.
  revert s'; induction s as [|[p cur] rest IH]; intros s' H; simpl in H.
  - discriminate.
  - destruct (String.eqb p k).
    + destruct cur; [discriminate|]. injection H as <-. reflexivity.
    + destruct (set_keyword k v rest) as [rest'|]; [|discriminate].
      injection H as <-. simpl. rewrite (IH rest' eq_refl). reflexivity.
Qed.

Lemma set_keyword_unknown {A} k (v : A) s :
  ~ In k (map fst s) ->
  set_keyword k v s = Raise (TypeError (unexpected_keyword k)).
Proof.
  induction s as [|[p cur] rest IH]; simpl; intros Hk.
  - reflexivity.
  - destruct (String.eqb_spec p k) as [->|_].
    + exfalso. apply Hk. left. reflexivity.
    + rewrite IH; [reflexivity|]. intros Hin. apply Hk. right. assumption.
Qed.

Lemma set_keywords_unknown {A} k (kwargs : list (string * A)) s :
  In k (map fst kwargs) -> ~ In k (map fst s) ->
  exists e, set_keywords kwargs s = Raise e.
Proof.
  revert s; induction kwargs as [|[k' v] kw IH]; simpl; intros s Hin Hk.
  - contradiction.
  - destruct (set_keyword k' v s) as [s'|e] eqn:E; [|eauto].
    destruct Hin as [->|Hin].
    + rewrite (set_keyword_unknown k v s Hk) in E. discriminate.
    + apply IH; [assumption|].
      rewrite (set_keyword_names _ _ _ _ E). assumption.
Qed.

(** A keyword that names no parameter makes the call fail, whatever the
    other arguments are. *)
Lemma unknown_keyword_refused {A} params (args : list A) kwargs k :
  In k (map fst kwargs) -> ~ In k params ->
  exists e, bind_arguments params args kwargs = Raise e.
Proof.
  intros Hin Hk. unfold bind_arguments.
  destruct (set_keywords_unknown k kwargs (positional params args) Hin) as [e ->].
  - rewrite positional_names. assumption.
  - eauto.
Qed.

(** [Book] construction fails exactly when the binding of its arguments does. *)
Lemma Book_init_raises_iff args kwargs e :
  Book.init args kwargs = Raise e <->
  bind_arguments Book.fields args kwargs = Raise e.
Proof.
  unfold Book.init.
  destruct (bind_arguments Book.fields args kwargs) as [vs|e'] eqn:E.
  - apply bind_arguments_length in E.
    destruct vs as [|a [|b [|c [|d [|x [|f [|g vs]]]]]]]; try discriminate E.
    split; discriminate.
  - split; intros H; injection H as ->; reflexivity.
Qed.

(** Six positional arguments make a [Book], field by field. *)
Lemma Book_init_six a b c d e f :
  Book.init [a; b; c; d; e; f] [] = Ok (Book.mk a b c d e f).
Proof. reflexivity. Qed.

Lemma Book_init_row (b : book_row) :
  Book.init (book_columns b) [] = Ok (book_of_row b).
Proof. reflexivity. Qed.

(** More positional arguments than fields are refused, whatever they are. *)
Lemma Book_init_too_many (args : list value) :
  (6 < List.length args)%nat ->
  Book.init args [] =
  Raise (TypeError (too_many_positional 7 (S (List.length args)))).
Proof.
  intros H. unfold Book.init, bind_arguments. simpl set_keywords.
  replace (List.length Book.fields) with 6%nat by reflexivity.
  destruct (Nat.ltb_spec 6 (List.length args)) as [_|Hge]; [reflexivity|lia].
Qed.

(** ** SQL equality *)

Lemma sql_eq_VInt a n : sql_eq a (VInt n) = true <-> a = VInt n.
Proof.
  destruct a as [|x|s]; simpl; split; intros H; try discriminate.
  - apply Z.eqb_eq in H. subst; reflexivity.
  - injection H as ->. apply Z.eqb_refl.
Qed.

Lemma sql_eq_VStr a s : sql_eq a (VStr s) = true <-> a = VStr s.
Proof.
  destruct a as [|x|s']; simpl; split; intros H; try discriminate.
  - apply String.eqb_eq in H. subst; reflexivity.
  - injection H as ->. apply String.eqb_refl.
Qed.

Lemma sql_eq_VInt_false a n : sql_eq a (VInt n) = false <-> a <> VInt n.
Proof.
  rewrite <- sql_eq_VInt. destruct (sql_eq a (VInt n)); split; congruence.
Qed.

(** ** Joins *)

Lemma in_inner_join {A B} (on : A -> B -> bool) l r a b :
  In (a, b) (inner_join on l r) <-> In a l /\ In b r /\ on a b = true.
Proof.
  unfold inner_join. rewrite in_flat_map. split.
  - intros (a' & Ha & Hin). apply in_map_iff in Hin as (b' & Heq & Hb).
    injection Heq as -> ->. apply filter_In in Hb as [Hb Hon]. auto.
  - intros (Ha & Hb & Hon). exists a. split; [assumption|].
    apply in_map. apply filter_In. auto.
Qed.

Lemma hd_error_filter {A} (f : A -> bool) l :
  hd_error (filter f l) = find f l.
Proof.
  induction l as [|x l IH]; simpl; [reflexivity|].
  destruct (f x); [reflexivity | assumption].
Qed.

(** ** The gateway, statement by statement *)

Section Gateway.

Variable fault : statement -> Tables -> option exn.

Lemma fetch_results_eq q w :
  fetch_results fault q w =
  (match fault (Fetch q) (tables w) with
   | Some e => Raise e
   | None => Ok (rows_of q (tables w))
   end,
   mk_database (tables w) (issued w ++ [Fetch q])).
Proof. unfold fetch_results. destruct (fault _ _); reflexivity. Qed.

Lemma execute_query_eq c w :
  execute_query fault c w =
  (match fault (Execute c) (tables w) with
   | Some e => Raise e
   | None => Ok tt
   end,
   mk_database
     (match fault (Execute c) (tables w) with
      | Some _ => tables w
      | None => apply c (tables w)
      end)
     (issued w ++ [Execute c])).
Proof. unfold execute_query. destruct (fault _ _); reflexivity. Qed.

(** A handler that returns makes the whole [try] return. *)
Lemma try_except_returns {A} (body : M A) (a : A) w :
  exists v, fst (try_except body (fun _ => ret a) w) = Ok v.
Proof.
  unfold try_except. destruct (body w) as [[v|e] w']; simpl; eauto.
Qed.

Lemma try_except_caught {A} (body : M A) (a : A) w e :
  fst (body w) = Raise e ->
  fst (try_except body (fun _ => ret a) w) = Ok a.
Proof.
  unfold try_except. destruct (body w) as [[v|e'] w']; simpl; intros H.
  - discriminate.
  - reflexivity.
Qed.

Lemma bind_raises {A B} (m : M A) (k : A -> M B) w e :
  fst (m w) = Raise e -> fst (bind m k w) = Raise e.
Proof.
  unfold bind. destruct (m w) as [[v|e'] w']; simpl; intros H.
  - discriminate.
  - injection H as ->. reflexivity.
Qed.

Lemma fetch_results_refused q w e :
  fault (Fetch q) (tables w) = Some e -> fst (fetch_results fault q w) = Raise e.
Proof. intros H. rewrite fetch_results_eq, H. reflexivity. Qed.

(** The shape of every read operation but one: fetch, map, and give [empty]
    on any exception. *)
Lemma guarded_fetch_swallows {A} q (k : list tuple -> M A) (empty : A) :
  swallows fault q empty
    (try_except (rs <- fetch_results fault q ;; k rs) (fun _ => ret empty)).
Proof.
  intros w. split.
  - apply try_except_returns.
  - intros e He. apply try_except_caught with (e := e).
    apply bind_raises, fetch_results_refused, He.
Qed.

Lemma guarded_rows_swallows q :
  swallows fault q [] (try_except (fetch_results fault q) (fun _ => ret [])).
Proof.
  intros w. split.
  - apply try_except_returns.
  - intros e He. apply try_except_caught with (e := e).
    apply fetch_results_refused, He.
Qed.

(** The shape of every write operation. *)
Lemma guarded_execute c msg w :
  try_except (execute_query fault c) (fun _ => raise (RuntimeError msg)) w =
  (match fault (Execute c) (tables w) with
   | Some _ => Raise (RuntimeError msg)
   | None => Ok tt
   end,
   mk_database
     (match fault (Execute c) (tables w) with
      | Some _ => tables w
      | None => apply c (tables w)
      end)
     (issued w ++ [Execute c])).
Proof.
  unfold try_except. rewrite execute_query_eq.
  destruct (fault _ _); reflexivity.
Qed.

(** What [list_book_by_name] returns and leaves behind, in full. *)
Lemma list_book_by_name_eq name w :
  Repository.list_book_by_name fault name w =
  (Ok (match fault (Fetch (select_book_by_title name)) (tables w) with
       | Some _ => None
       | None => option_map book_of_row (first_titled name (tables w))
       end),
   mk_database (tables w) (issued w ++ [Fetch (select_book_by_title name)])).
Proof.
  unfold Repository.list_book_by_name, try_except, bind.
  rewrite fetch_results_eq.
  destruct (fault _ _) as [e|]; [reflexivity|].
  unfold first_titled. rewrite <- hd_error_filter. simpl rows_of.
  destruct (filter _ (book (tables w))) as [|b bs]; reflexivity.
Qed.

(** What [list_all_members_by_book] returns, in full. *)
Lemma list_all_members_by_book_eq name w :
  fst (Repository.list_all_members_by_book fault name w) =
  Ok (match fault (Fetch (select_book_by_title name)) (tables w) with
      | Some _ => []
      | None =>
          match first_titled name (tables w) with
          | None => []
          | Some b =>
              match fault (Fetch (select_members_by_book (b_book_id b))) (tables w) with
              | Some _ => []
              | None => map borrower_columns (borrowers_of_book (b_book_id b) (tables w))
              end
          end
      end).
Proof.
  unfold Repository.list_all_members_by_book, bind.
  rewrite list_book_by_name_eq.
  destruct (fault (Fetch (select_book_by_title name)) (tables w)); [reflexivity|].
  destruct (first_titled name (tables w)) as [b|]; [|reflexivity].
  unfold try_except. cbn [option_map]. cbv beta iota.
  rewrite fetch_results_eq. cbn [tables book_of_row Book.id].
  destruct (fault _ _); reflexivity.
Qed.

End Gateway.

(** ** Reading all books *)

Section AllBooks.

Variable fault : statement -> Tables -> option exn.

(** The constructor call of [fetchall_books] raises on every row: a row
    shorter than seven cells has no [row[6]], and seven positional arguments
    are one more than [Book] has fields. *)
Lemma book_of_joined_row_raises row w :
  exists e, Repository.book_of_joined_row row w = (Raise e, w).
Proof.
  destruct row as [|r0 [|r1 [|r2 [|r3 [|r4 [|r5 [|r6 rest]]]]]]];
    try (eexists; reflexivity).
Qed.

Lemma book_of_joined_row_seven r0 r1 r2 r3 r4 r5 r6 w :
  Repository.book_of_joined_row [r0; r1; r2; r3; r4; r5; r6] w =
  (Raise (TypeError (too_many_positional 7 8)), w).
Proof. reflexivity. Qed.

Lemma comprehension_raises {A B} (f : A -> M B) x xs w e :
  f x w = (Raise e, w) -> comprehension f (x :: xs) w = (Raise e, w).
Proof. intros H. simpl. unfold bind. rewrite H. reflexivity. Qed.

(** Whatever the storage holds or does, [fetchall_books] returns no book. *)
Lemma fetchall_books_returns_nothing w :
  fst (Repository.fetchall_books fault w) = Ok [].
Proof.
  unfold Repository.fetchall_books, try_except, bind.
  rewrite fetch_results_eq.
  destruct (fault _ _) as [e|]; [reflexivity|].
  destruct (rows_of select_books_with_author (tables w)) as [|row rows];
    [reflexivity|].
  destruct (book_of_joined_row_raises row
              (mk_database (tables w) (issued w ++ [Fetch select_books_with_author])))
    as [e He].
  rewrite (comprehension_raises _ _ _ _ _ He). reflexivity.
Qed.

End AllBooks.

(** C1 (the code departs from the claim).  The books query of the example
    library runs and returns two rows, one per book, but [fetchall_books]
    returns the empty list: building a [Book] from seven cells raises, and the
    handler answers with no book at all. *)
Theorem fetchall_books_loses_the_rows :
  reachable (Fetch select_books_with_author) library = None /\
  rows_of select_books_with_author library =
    [[VInt 1; VStr "Dune"; VStr "Herbert"; VStr "111"; VInt 1965; VInt 1; VInt 1];
     [VInt 2; VStr "Emma"; VNone; VStr "222"; VInt 1815; VInt 1; VInt 2]] /\
  fst (Repository.fetchall_books reachable session) = Ok [].
Proof. repeat split. Qed.

(** ** The controller's book construction *)

(** C2.  For every input and every state of the database, [add_book] and
    [update_book] of [BookController] raise while they build the [Book]
    (the keyword [author] names no field), and the database is left exactly as
    it was: same tables, and no statement issued, so no insert either. *)
Theorem controller_raises_before_the_gateway fault :
  (forall title author publisher isbn year_published w,
      BookController.add_book fault title author publisher isbn year_published w
      = (Raise (TypeError (unexpected_keyword "author")), w)) /\
  (forall bid title author publisher_id isbn year w,
      BookController.update_book fault bid title author publisher_id isbn year w
      = (Raise (TypeError (unexpected_keyword "author")), w)).
Proof. split; intros; reflexivity. Qed.

(** The default genre is among the keyword arguments of both calls. *)
Lemma genre_id_default_is_written title author publisher isbn year bid :
  In ("genre_id", VInt 1)
    (BookController.add_book_kwargs title author publisher isbn year) /\
  In ("genre_id", VInt 1)
    (BookController.update_book_kwargs bid title author publisher isbn year).
Proof. split; simpl; tauto. Qed.

(** C10 (the code departs from the claim).  Creating and updating a book
    through the controller sends nothing to the gateway: both calls raise and
    issue no statement, whereas the gateway itself, given the same book with
    genre 1, issues the insert with that genre. *)
Theorem controller_passes_no_genre_id :
  BookController.add_book reachable (VStr "Persuasion") (VStr "Austen") (VInt 2)
    (VStr "333") (VInt 1817) session
  = (Raise (TypeError (unexpected_keyword "author")), session) /\
  BookController.update_book reachable (VInt 2) (VStr "Persuasion") (VStr "Austen")
    (VInt 2) (VStr "333") (VInt 1817) session
  = (Raise (TypeError (unexpected_keyword "author")), session) /\
  issued session = [] /\
  issued (snd (Repository.add_book reachable persuasion session))
  = [Execute (insert_book (VStr "Persuasion") (VStr "333") (VInt 1817) (VInt 1)
                (VInt 2))].
Proof. repeat split. Qed.

(** ** The failure policy of the gateway *)

Section FailurePolicy.

Variable fault : statement -> Tables -> option exn.

Lemma list_all_members_by_book_swallows name :
  swallows fault (select_book_by_title name) []
    (Repository.list_all_members_by_book fault name).
Proof.
  intros w. rewrite list_all_members_by_book_eq. split.
  - eexists; reflexivity.
  - intros e He. rewrite He. reflexivity.
Qed.

(** The second statement of [list_all_members_by_book] is guarded too. *)
Lemma list_all_members_by_book_swallows_second name w :
  (forall book_id, fault (Fetch (select_members_by_book book_id)) (tables w) <> None) ->
  fst (Repository.list_all_members_by_book fault name w) = Ok [].
Proof.
  intros H. rewrite list_all_members_by_book_eq.
  destruct (fault (Fetch (select_book_by_title name)) (tables w)); [reflexivity|].
  destruct (first_titled name (tables w)) as [b|]; [|reflexivity].
  specialize (H (b_book_id b)).
  destruct (fault (Fetch (select_members_by_book (b_book_id b))) (tables w));
    [reflexivity | contradiction].
Qed.

Lemma write_propagates c msg :
  propagates fault c msg
    (try_except (execute_query fault c) (fun _ => raise (RuntimeError msg))).
Proof. intros w. rewrite guarded_execute. reflexivity. Qed.

End FailurePolicy.

(** C3.  Every read operation of the gateway always returns, and returns the
    empty result ([[]] or [None]) when the storage refuses its statement;
    every write operation raises the generic [RuntimeError] exactly when the
    storage refuses its statement, and returns otherwise. *)
Theorem gateway_failure_policy fault :
  swallows fault select_books_with_author [] (Repository.fetchall_books fault) /\
  (forall name,
      swallows fault (select_book_by_title name) None
        (Repository.list_book_by_name fault name)) /\
  (forall name,
      swallows fault (select_books_by_author name) []
        (Repository.get_books_by_author fault name)) /\
  swallows fault select_publisher [] (Repository.get_publisher fault) /\
  swallows fault select_members [] (Repository.get_all_members fault) /\
  swallows fault select_loan [] (Repository.list_all_loan fault) /\
  (forall name,
      swallows fault (select_book_by_title name) []
        (Repository.list_all_members_by_book fault name)) /\
  (forall name w,
      (forall book_id,
          fault (Fetch (select_members_by_book book_id)) (tables w) <> None) ->
      fst (Repository.list_all_members_by_book fault name w) = Ok []) /\
  swallows fault select_distinct_members_with_loan []
    (Repository.list_members_borrowed_at_least_one_book fault) /\
  (forall book,
      propagates fault
        (insert_book (Book.title book) (Book.isbn book) (Book.pub_year book)
           (Book.genre_id book) (Book.publisher_id book))
        "Failed to add book." (Repository.add_book fault book)) /\
  (forall book,
      propagates fault
        (update_book_set (Book.title book) (Book.isbn book) (Book.pub_year book)
           (Book.genre_id book) (Book.publisher_id book) (Book.id book))
        "Failed to update book." (Repository.update_book fault book)) /\
  (forall book_id,
      propagates fault (delete_book book_id) "Failed to delete book."
        (Repository.delete_book_by_id fault book_id)).
Proof.
  repeat match goal with |- _ /\ _ => split end; intros.
  - apply guarded_fetch_swallows.
  - apply guarded_fetch_swallows.
  - apply guarded_fetch_swallows.
  - apply guarded_fetch_swallows.
  - apply guarded_fetch_swallows.
  - apply guarded_rows_swallows.
  - apply list_all_members_by_book_swallows.
  - apply list_all_members_by_book_swallows_second; assumption.
  - apply guarded_rows_swallows.
  - apply write_propagates.
  - apply write_propagates.
  - apply write_propagates.
Qed.

(** With the storage out of reach, looking up a stored title gives [None],
    the borrowers of a stored book are the empty list, and deleting raises. *)
Lemma gateway_failure_policy_witness :
  fst (Repository.list_book_by_name unreachable (VStr "Dune") session) = Ok None /\
  fst (Repository.list_all_members_by_book unreachable (VStr "Dune") session) = Ok [] /\
  fst (Repository.list_all_members_by_book loans_unreadable (VStr "Dune") session)
  = Ok [] /\
  fst (Repository.delete_book_by_id unreachable (VInt 1) session)
  = Raise (RuntimeError "Failed to delete book.") /\
  fst (Repository.delete_book_by_id reachable (VInt 1) session) = Ok tt.
Proof.
  pose proof (gateway_failure_policy unreachable)
    as (_ & Hname & _ & _ & _ & _ & Hborrowers & _ & _ & _ & _ & Hdelete).
  pose proof (gateway_failure_policy loans_unreadable)
    as (_ & _ & _ & _ & _ & _ & _ & Hsecond & _).
  pose proof (gateway_failure_policy reachable)
    as (_ & _ & _ & _ & _ & _ & _ & _ & _ & _ & _ & Hdelete').
  refine (conj _ (conj _ (conj _ (conj _ _)))).
  - apply (proj2 (Hname (VStr "Dune") session) (StorageError "connection lost")).
    reflexivity.
  - apply (proj2 (Hborrowers (VStr "Dune") session) (StorageError "connection lost")).
    reflexivity.
  - apply Hsecond. intros book_id. discriminate.
  - apply (Hdelete (VInt 1) session).
  - apply (Hdelete' (VInt 1) session).
Defined.

(** ** Finding a book by its title *)

Lemma find_first {A} (f : A -> bool) before x after :
  f x = true -> (forall y, In y before -> f y = false) ->
  find f (before ++ x :: after)%list = Some x.
Proof.
  intros Hx. induction before as [|y before IH]; intros Hb; simpl.
  - rewrite Hx. reflexivity.
  - rewrite (Hb y) by (left; reflexivity). apply IH.
    intros z Hz. apply Hb. right. assumption.
Qed.

Lemma find_absent {A} (f : A -> bool) l :
  (forall y, In y l -> f y = false) -> find f l = None.
Proof.
  induction l as [|y l IH]; intros H; simpl.
  - reflexivity.
  - rewrite (H y) by (left; reflexivity). apply IH.
    intros z Hz. apply H. right. assumption.
Qed.

Lemma sql_eq_VStr_false a s : sql_eq a (VStr s) = false <-> a <> VStr s.
Proof.
  rewrite <- sql_eq_VStr. destruct (sql_eq a (VStr s)); split; congruence.
Qed.

Lemma first_titled_first title t before b after :
  book t = (before ++ b :: after)%list ->
  b_title b = VStr title ->
  (forall b', In b' before -> b_title b' <> VStr title) ->
  first_titled (VStr title) t = Some b.
Proof.
  intros Hbook Hb Hbefore. unfold first_titled. rewrite Hbook.
  apply find_first.
  - apply sql_eq_VStr. assumption.
  - intros b' Hb'. apply sql_eq_VStr_false. auto.
Qed.

Lemma first_titled_absent title t :
  (forall b, In b (book t) -> b_title b <> VStr title) ->
  first_titled (VStr title) t = None.
Proof.
  intros H. apply find_absent. intros b Hb. apply sql_eq_VStr_false. auto.
Qed.

(** C8, as amended.  [list_book_by_name] never raises; when the storage
    refuses the query it returns [None]; when the storage runs the query it
    returns the first stored book whose title equals the argument, and [None]
    when no stored book has that title. *)
Theorem list_book_by_name_first_match fault title w :
  (exists r, fst (Repository.list_book_by_name fault (VStr title) w) = Ok r) /\
  (forall e,
      fault (Fetch (select_book_by_title (VStr title))) (tables w) = Some e ->
      fst (Repository.list_book_by_name fault (VStr title) w) = Ok None) /\
  (fault (Fetch (select_book_by_title (VStr title))) (tables w) = None ->
   finds_first_titled fault title w).
Proof.
  rewrite list_book_by_name_eq. cbn [fst]. split; [|split].
  - eexists; reflexivity.
  - intros e He. rewrite He. reflexivity.
  - intros Hrun. unfold finds_first_titled.
    rewrite list_book_by_name_eq, Hrun. cbn [fst]. split.
    + intros before b after Hbook Hb Hbefore.
      rewrite (first_titled_first _ _ _ _ _ Hbook Hb Hbefore). reflexivity.
    + intros Habsent. rewrite (first_titled_absent _ _ Habsent). reflexivity.
Qed.

(** In the example library, Emma is found behind Dune, and no book is called
    Ulysses. *)
Lemma list_book_by_name_first_match_witness :
  fst (Repository.list_book_by_name reachable (VStr "Emma") session)
  = Ok (Some (book_of_row emma)) /\
  fst (Repository.list_book_by_name reachable (VStr "Ulysses") session) = Ok None.
Proof.
  split.
  - apply (proj1 (proj2 (proj2
             (list_book_by_name_first_match reachable "Emma" session)) eq_refl)
             [dune] emma []).
    + reflexivity.
    + reflexivity.
    + intros b' [<-|[]]. discriminate.
  - apply (proj2 (proj2 (proj2
             (list_book_by_name_first_match reachable "Ulysses" session)) eq_refl)).
    intros b [<-|[<-|[]]]; discriminate.
Defined.

(** C8, as stated, fails: with the storage out of reach, Dune is the first
    stored book of that title, and [list_book_by_name] returns [None]. *)
Lemma list_book_by_name_misses_when_refused :
  ~ finds_first_titled unreachable "Dune" session.
Proof.
  intros [Hfirst _].
  specialize (Hfirst [] dune [emma] eq_refl eq_refl).
  assert (H : fst (Repository.list_book_by_name unreachable (VStr "Dune") session)
              = Ok (Some (book_of_row dune))).
  { apply Hfirst. intros b' []. }
  discriminate H.
Qed.

(** ** The borrowers of a book *)

(** The rows that the four-table join keeps. *)
Lemma in_borrowers_of_book book_id t m l bc b :
  In (m, l, bc, b) (borrowers_of_book book_id t) <->
  In m (members t) /\ In l (loan t) /\ In bc (book_copy t) /\ In b (book t) /\
  sql_eq (m_member_id m) (l_member_id l) = true /\
  sql_eq (l_copy_id l) (bc_copy_id bc) = true /\
  sql_eq (bc_book_id bc) (b_book_id b) = true /\
  sql_eq (b_book_id b) book_id = true.
Proof.
  unfold borrowers_of_book, members_join_loan.
  rewrite filter_In, !in_inner_join. cbn [fst snd]. tauto.
Qed.

(** C7, as amended.  [list_all_members_by_book] never raises.  It first
    resolves the title with [list_book_by_name]; when the title does not
    resolve it returns the empty list; when the title resolves to a book and
    the storage runs the join query for that book's id, it returns the rows of
    the join of members, loan, book_copy and book for that id; when the
    storage refuses the join query it returns the empty list. *)
Theorem list_all_members_by_book_two_steps fault title w :
  (exists rows,
      fst (Repository.list_all_members_by_book fault (VStr title) w) = Ok rows) /\
  (fst (Repository.list_book_by_name fault (VStr title) w) = Ok None ->
   fst (Repository.list_all_members_by_book fault (VStr title) w) = Ok []) /\
  (forall found,
      fst (Repository.list_book_by_name fault (VStr title) w) = Ok (Some found) ->
      (fault (Fetch (select_members_by_book (Book.id found))) (tables w) = None ->
       fst (Repository.list_all_members_by_book fault (VStr title) w)
       = Ok (map borrower_columns (borrowers_of_book (Book.id found) (tables w)))) /\
      (fault (Fetch (select_members_by_book (Book.id found))) (tables w) <> None ->
       fst (Repository.list_all_members_by_book fault (VStr title) w) = Ok [])).
Proof.
  rewrite list_all_members_by_book_eq, list_book_by_name_eq. cbn [fst].
  split; [eexists; reflexivity|].
  destruct (fault (Fetch (select_book_by_title (VStr title))) (tables w)).
  - split; [reflexivity|]. intros found H. discriminate H.
  - destruct (first_titled (VStr title) (tables w)) as [b|]; cbn [option_map].
    + split; [intros H; discriminate H|].
      intros found H. injection H as <-. cbn [book_of_row Book.id].
      destruct (fault (Fetch (select_members_by_book (b_book_id b))) (tables w));
        split; intros H; try reflexivity; try discriminate H.
      contradiction H. reflexivity.
    + split; [reflexivity|]. intros found H. discriminate H.
Qed.

(** In the example library Dune resolves to book 1, which Ann borrowed twice;
    Ulysses does not resolve. *)
Lemma list_all_members_by_book_two_steps_witness :
  fst (Repository.list_all_members_by_book reachable (VStr "Dune") session)
  = Ok [[VStr "Ann"; VStr "Lee"; VStr "Dune"; VStr "2024-01-01"; VStr "2024-01-15";
         VNone];
        [VStr "Ann"; VStr "Lee"; VStr "Dune"; VStr "2024-02-01"; VStr "2024-02-15";
         VNone]] /\
  fst (Repository.list_all_members_by_book reachable (VStr "Ulysses") session)
  = Ok [].
Proof.
  split.
  - apply (proj1 (proj2 (proj2
             (list_all_members_by_book_two_steps reachable "Dune" session))
             (book_of_row dune) eq_refl) eq_refl).
  - apply (proj1 (proj2
             (list_all_members_by_book_two_steps reachable "Ulysses" session))
             eq_refl).
Defined.

(** C7, as stated, fails: Dune resolves to book 1, which has two loans, but
    with the join query refused the method returns the empty list. *)
Lemma list_all_members_by_book_empty_when_refused :
  ~ lists_borrowers loans_unreadable "Dune" session.
Proof.
  intros [_ Hfound].
  specialize (Hfound (book_of_row dune) eq_refl).
  discriminate Hfound.
Qed.

(** ** Members with a loan *)

Lemma in_members_with_loan t row :
  In row (rows_of select_distinct_members_with_loan t) <->
  exists m,
    In m (members t) /\ has_loan t m /\
    row = [m_member_id m; m_first_name m; m_last_name m].
Proof.
  cbn [rows_of]. rewrite nodup_In, in_map_iff. unfold members_join_loan. split.
  - intros ([m l] & <- & Hin). apply in_inner_join in Hin as (Hm & Hl & Hon).
    exists m. repeat split; [assumption|]. exists l. auto.
  - intros (m & Hm & (l & Hl & Hon) & ->). exists (m, l). split; [reflexivity|].
    apply in_inner_join. auto.
Qed.

(** A key column tells the rows of its table apart. *)
Lemma key_injective {A B} (key : A -> B) l x y :
  NoDup (map key l) -> In x l -> In y l -> key x = key y -> x = y.
Proof.
  induction l as [|z l IH]; simpl; intros Hnd Hx Hy Hk; [contradiction|].
  inversion Hnd as [|? ? Hz Hnd']; subst.
  destruct Hx as [->|Hx], Hy as [->|Hy].
  - reflexivity.
  - exfalso. apply Hz. rewrite Hk. apply in_map. assumption.
  - exfalso. apply Hz. rewrite <- Hk. apply in_map. assumption.
  - auto.
Qed.

(** C6, as amended.  [list_members_borrowed_at_least_one_book] never raises;
    the tuples it returns are distinct, and each is the id and names of a
    member who has at least one loan row with that member's id, so no member
    without a loan is returned; when member_id is a key of the members table
    the returned ids are distinct too; and when the storage runs the query,
    every member with at least one loan row appears. *)
Theorem members_with_loan_sound_and_complete fault w :
  exists rows,
    fst (Repository.list_members_borrowed_at_least_one_book fault w) = Ok rows /\
    NoDup rows /\
    (forall row,
        In row rows ->
        exists m,
          In m (members (tables w)) /\ has_loan (tables w) m /\
          row = [m_member_id m; m_first_name m; m_last_name m]) /\
    (NoDup (map m_member_id (members (tables w))) ->
     NoDup (map (fun row => nth 0 row VNone) rows)) /\
    (fault (Fetch select_distinct_members_with_loan) (tables w) = None ->
     forall m,
       In m (members (tables w)) -> has_loan (tables w) m ->
       In [m_member_id m; m_first_name m; m_last_name m] rows).
Proof.
  unfold Repository.list_members_borrowed_at_least_one_book, try_except.
  rewrite fetch_results_eq.
  destruct (fault (Fetch select_distinct_members_with_loan) (tables w)) as [e|].
  - exists []. cbn. repeat split; try constructor; try contradiction.
    intros H. discriminate H.
  - exists (rows_of select_distinct_members_with_loan (tables w)).
    split; [reflexivity|]. split; [apply NoDup_nodup|].
    split; [intros row; apply in_members_with_loan|]. split.
    + intros Hkey. apply NoDup_map_NoDup_ForallPairs; [|apply NoDup_nodup].
      intros r1 r2 H1 H2.
      apply in_members_with_loan in H1 as (m1 & Hm1 & _ & ->).
      apply in_members_with_loan in H2 as (m2 & Hm2 & _ & ->).
      cbn [nth]. intros Hid.
      rewrite (key_injective m_member_id _ m1 m2 Hkey Hm1 Hm2 Hid). reflexivity.
    + intros _ m Hm Hloan. apply in_members_with_loan. eauto.
Qed.

(** In the example library Ann, who has two loans, is returned, once. *)
Lemma members_with_loan_sound_and_complete_witness :
  has_loan library ann /\
  exists rows,
    fst (Repository.list_members_borrowed_at_least_one_book reachable session)
    = Ok rows /\
    NoDup rows /\ In [VInt 7; VStr "Ann"; VStr "Lee"] rows.
Proof.
  assert (Hann : has_loan library ann).
  { eexists. split; [left; reflexivity | reflexivity]. }
  split; [exact Hann|].
  destruct (members_with_loan_sound_and_complete reachable session)
    as (rows & Hrows & Hdistinct & _ & _ & Hcomplete).
  exists rows. split; [exact Hrows|]. split; [exact Hdistinct|].
  apply (Hcomplete eq_refl ann); [left; reflexivity | exact Hann].
Defined.

(** C6, as stated, fails: Ann has a loan, but with the storage out of reach
    the method returns no member. *)
Lemma members_with_loan_missed_when_refused :
  ~ lists_members_with_loan unreachable session.
Proof.
  intros (rows & Hrows & _ & _ & Hcomplete).
  injection Hrows as <-.
  apply (Hcomplete ann).
  - left; reflexivity.
  - eexists. split; [left; reflexivity | reflexivity].
Qed.

(** ** Writing books *)

Section Writes.

Variable fault : statement -> Tables -> option exn.

Lemma set_book_same t : set_book (book t) t = t.
Proof. destruct t; reflexivity. Qed.

Lemma map_fixed {A} (f : A -> A) l :
  (forall x, In x l -> f x = x) -> map f l = l.
Proof.
  intros H. rewrite <- (map_id l) at 2. apply map_ext_in. assumption.
Qed.

(** A write that returns has run its statement. *)
Lemma guarded_execute_ok c msg w w' :
  try_except (execute_query fault c) (fun _ => raise (RuntimeError msg)) w
  = (Ok tt, w') ->
  fault (Execute c) (tables w) = None /\
  w' = mk_database (apply c (tables w)) (issued w ++ [Execute c]).
Proof.
  rewrite guarded_execute.
  destruct (fault (Execute c) (tables w)); intros H; [discriminate H|].
  injection H as <-. split; reflexivity.
Qed.

End Writes.

(** C4, as amended.  When no stored book has the title of the inserted book
    and the storage runs the fetch, inserting a book with [add_book] and then
    fetching by its title returns a record whose title, isbn, pub_year,
    genre_id and publisher_id are the inserted values and whose id is the key
    that the storage assigned; the id field of the inserted book plays no
    part in the insert. *)
Theorem add_book_then_list_book_by_name fault bk title w w' :
  Book.title bk = VStr title ->
  (forall b, In b (book (tables w)) -> b_title b <> VStr title) ->
  Repository.add_book fault bk w = (Ok tt, w') ->
  fault (Fetch (select_book_by_title (VStr title))) (tables w') = None ->
  fst (Repository.list_book_by_name fault (VStr title) w')
  = Ok (Some (stored_book (book_seq (tables w)) bk)) /\
  (forall other_id,
      Repository.add_book fault
        (Book.mk other_id (Book.title bk) (Book.isbn bk) (Book.pub_year bk)
           (Book.genre_id bk) (Book.publisher_id bk)) w
      = (Ok tt, w')).
Proof.
  intros Htitle Hfresh Hadd Hrun. split.
  - apply guarded_execute_ok in Hadd as [_ ->].
    rewrite list_book_by_name_eq, Hrun. cbn [fst tables].
    rewrite (first_titled_first title _ (book (tables w))
               (mk_book (VInt (book_seq (tables w))) (Book.title bk) (Book.isbn bk)
                  (Book.pub_year bk) (Book.genre_id bk) (Book.publisher_id bk))
               []).
    + reflexivity.
    + reflexivity.
    + exact Htitle.
    + exact Hfresh.
  - intros other_id. exact Hadd.
Qed.

(** Persuasion is new to the example library; it comes back under key 3. *)
Lemma add_book_then_list_book_by_name_witness :
  fst (Repository.list_book_by_name reachable (VStr "Persuasion")
         (snd (Repository.add_book reachable persuasion session)))
  = Ok (Some (Book.mk (VInt 3) (VStr "Persuasion") (VStr "333") (VInt 1817)
                (VInt 1) (VInt 2))).
Proof.
  apply (add_book_then_list_book_by_name reachable persuasion "Persuasion" session
           (snd (Repository.add_book reachable persuasion session))).
  - reflexivity.
  - intros b [<-|[<-|[]]]; discriminate.
  - reflexivity.
  - reflexivity.
Defined.

(** C4, as stated, fails twice over.  The example library already holds a
    book called Dune, and fetching by that title after inserting another Dune
    returns the old one (isbn 111, year 1965), not the inserted values.  And
    when the storage runs the insert of Persuasion but refuses the fetch, the
    fetch returns [None]. *)
Lemma add_book_then_list_book_by_name_not_always :
  ~ round_trips reachable another_dune "Dune" session /\
  ~ round_trips reads_refused persuasion "Persuasion" session.
Proof.
  split; intros H; specialize (H eq_refl _ eq_refl); discriminate H.
Qed.

(** C5.  When the storage runs the statement, [update_book] returns without
    raising, every row whose book_id matches the book's id gets the book's
    title, isbn, pub_year, genre_id and publisher_id and keeps its key, every
    other row and every other table stay as they were, and when no row
    matches the tables are unchanged altogether.  When the storage refuses
    the statement, [update_book] raises the domain error and the tables are
    unchanged; it raises in no other case. *)
Theorem update_book_by_key fault bk w :
  (fault
     (Execute
        (update_book_set (Book.title bk) (Book.isbn bk) (Book.pub_year bk)
           (Book.genre_id bk) (Book.publisher_id bk) (Book.id bk)))
     (tables w) = None ->
   fst (Repository.update_book fault bk w) = Ok tt /\
   book (tables (snd (Repository.update_book fault bk w)))
   = map (fun b =>
            if sql_eq (b_book_id b) (Book.id bk)
            then mk_book (b_book_id b) (Book.title bk) (Book.isbn bk)
                   (Book.pub_year bk) (Book.genre_id bk) (Book.publisher_id bk)
            else b)
       (book (tables w)) /\
   same_but_book (tables w) (tables (snd (Repository.update_book fault bk w))) /\
   ((forall b, In b (book (tables w)) -> sql_eq (b_book_id b) (Book.id bk) = false) ->
    tables (snd (Repository.update_book fault bk w)) = tables w)) /\
  (forall e,
      fault
        (Execute
           (update_book_set (Book.title bk) (Book.isbn bk) (Book.pub_year bk)
              (Book.genre_id bk) (Book.publisher_id bk) (Book.id bk)))
        (tables w) = Some e ->
      fst (Repository.update_book fault bk w)
      = Raise (RuntimeError "Failed to update book.") /\
      tables (snd (Repository.update_book fault bk w)) = tables w) /\
  (forall e,
      fst (Repository.update_book fault bk w) = Raise e ->
      e = RuntimeError "Failed to update book." /\
      fault
        (Execute
           (update_book_set (Book.title bk) (Book.isbn bk) (Book.pub_year bk)
              (Book.genre_id bk) (Book.publisher_id bk) (Book.id bk)))
        (tables w) <> None).
Proof.
  unfold Repository.update_book. rewrite guarded_execute.
  destruct (fault _ (tables w)) as [e0|]; cbn [fst snd tables].
  - split; [intros H; discriminate H|]. split.
    + intros e _. split; reflexivity.
    + intros e H. injection H as <-. split; [reflexivity | discriminate].
  - split; [|split].
    + intros _. split; [reflexivity|]. split; [reflexivity|].
      split; [repeat split|].
      intros Hnone. cbn [apply]. rewrite map_fixed.
      * apply set_book_same.
      * intros b Hb. rewrite (Hnone b Hb). reflexivity.
    + intros e H. discriminate H.
    + intros e H. discriminate H.
Qed.

(** In the example library, updating book 2 rewrites Emma and leaves Dune;
    updating book 9, which is not stored, changes nothing. *)
Lemma update_book_by_key_witness :
  book (tables (snd (Repository.update_book reachable
                       (Book.mk (VInt 2) (VStr "Emma, 2nd ed.") (VStr "223")
                          (VInt 1816) (VInt 1) (VInt 2)) session)))
  = [dune;
     mk_book (VInt 2) (VStr "Emma, 2nd ed.") (VStr "223") (VInt 1816) (VInt 1)
       (VInt 2)] /\
  tables (snd (Repository.update_book reachable
                 (Book.mk (VInt 9) (VStr "Ulysses") (VStr "444") (VInt 1922)
                    (VInt 1) (VInt 2)) session))
  = library /\
  fst (Repository.update_book unreachable
         (Book.mk (VInt 2) (VStr "Emma, 2nd ed.") (VStr "223") (VInt 1816)
            (VInt 1) (VInt 2)) session)
  = Raise (RuntimeError "Failed to update book.").
Proof.
  refine (conj _ (conj _ _)).
  - apply (proj1 (proj2 (proj1
             (update_book_by_key reachable
                (Book.mk (VInt 2) (VStr "Emma, 2nd ed.") (VStr "223") (VInt 1816)
                   (VInt 1) (VInt 2)) session) eq_refl))).
  - apply (proj2 (proj2 (proj2 (proj1
             (update_book_by_key reachable
                (Book.mk (VInt 9) (VStr "Ulysses") (VStr "444") (VInt 1922)
                   (VInt 1) (VInt 2)) session) eq_refl)))).
    intros b [<-|[<-|[]]]; reflexivity.
  - apply (proj1 (proj2
             (update_book_by_key unreachable
                (Book.mk (VInt 2) (VStr "Emma, 2nd ed.") (VStr "223") (VInt 1816)
                   (VInt 1) (VInt 2)) session))
             (StorageError "connection lost") eq_refl).
Defined.

(** C9.  After [delete_book_by_id] has returned, no stored book has the
    deleted id, so a lookup by that id finds nothing and no book fetched by
    title carries it; the book table is the old one without the rows of that
    id, in the same order, and all other tables are as they were. *)
Theorem delete_book_by_id_removes_the_key fault book_id w w' :
  Repository.delete_book_by_id fault (VInt book_id) w = (Ok tt, w') ->
  (forall b, In b (book (tables w')) -> b_book_id b <> VInt book_id) /\
  find (fun b => sql_eq (b_book_id b) (VInt book_id)) (book (tables w')) = None /\
  (forall title found,
      fst (Repository.list_book_by_name fault title w') = Ok (Some found) ->
      Book.id found <> VInt book_id) /\
  book (tables w')
  = filter (fun b => negb (sql_eq (b_book_id b) (VInt book_id))) (book (tables w)) /\
  (forall b,
      In b (book (tables w')) <->
      In b (book (tables w)) /\ b_book_id b <> VInt book_id) /\
  same_but_book (tables w) (tables w').
Proof.
  intros Hdel. apply guarded_execute_ok in Hdel as [_ ->]. cbn [tables apply].
  assert (Hin : forall b,
             In b (book (set_book
                           (filter (fun b => negb (sql_eq (b_book_id b) (VInt book_id)))
                              (book (tables w))) (tables w))) <->
             In b (book (tables w)) /\ b_book_id b <> VInt book_id).
  { intros b. cbn [book set_book]. rewrite filter_In, negb_true_iff, sql_eq_VInt_false.
    reflexivity. }
  assert (Hgone : forall b,
             In b (book (set_book
                           (filter (fun b => negb (sql_eq (b_book_id b) (VInt book_id)))
                              (book (tables w))) (tables w))) ->
             b_book_id b <> VInt book_id).
  { intros b Hb. apply Hin in Hb. tauto. }
  split; [exact Hgone|]. split; [|split; [|split; [|split]]].
  - apply find_absent. intros b Hb. apply sql_eq_VInt_false, Hgone, Hb.
  - intros title found. rewrite list_book_by_name_eq. cbn [fst tables].
    destruct (fault _ _); [intros H; discriminate H|].
    destruct (first_titled title _) as [b|] eqn:E; [|intros H; discriminate H].
    intros H. injection H as <-. cbn [book_of_row Book.id].
    apply Hgone. apply find_some in E. tauto.
  - reflexivity.
  - exact Hin.
  - repeat split.
Qed.

(** Deleting book 1 from the example library leaves Emma alone. *)
Lemma delete_book_by_id_removes_the_key_witness :
  book (tables (snd (Repository.delete_book_by_id reachable (VInt 1) session)))
  = [emma] /\
  find (fun b => sql_eq (b_book_id b) (VInt 1))
    (book (tables (snd (Repository.delete_book_by_id reachable (VInt 1) session))))
  = None.
Proof.
  pose proof (delete_book_by_id_removes_the_key reachable 1 session
                (snd (Repository.delete_book_by_id reachable (VInt 1) session))
                eq_refl) as (_ & Hfind & _ & Hbook & _).
  split; [exact Hbook | exact Hfind].
Defined.

(** * Further properties of the records, the gateway and the controllers *)

(** ** Records from positional arguments *)

(** Building a record from positional arguments succeeds exactly when there
    is one argument per field, and then the fields are the arguments in
    order: a [Book] and a [Member] take six cells, a [Publisher] five. *)
Theorem dataclass_positional_round_trip :
  (forall args bk, Book.init args [] = Ok bk <-> args = Book_astuple bk) /\
  (forall args p, Publisher.init args [] = Ok p <-> args = Publisher_astuple p) /\
  (forall args m, Member.init args [] = Ok m <-> args = Member_astuple m).
Proof.
  split; [|split]; intros args r; split.
  - destruct args as [|a [|b [|c [|d [|e [|f [|g rest]]]]]]]; cbn; intros H;
      try discriminate H.
    injection H as <-. reflexivity.
  - intros ->. destruct r. reflexivity.
  - destruct args as [|a [|b [|c [|d [|e [|f rest]]]]]]; cbn; intros H;
      try discriminate H.
    injection H as <-. reflexivity.
  - intros ->. destruct r. reflexivity.
  - destruct args as [|a [|b [|c [|d [|e [|f [|g rest]]]]]]]; cbn; intros H;
      try discriminate H.
    injection H as <-. reflexivity.
  - intros ->. destruct r. reflexivity.
Qed.

(** ** Reading whole tables *)

Lemma comprehension_of_rows {R A B} (cols : R -> A) (f : A -> result B)
    (g : R -> B) l w :
  (forall r, f (cols r) = Ok (g r)) ->
  comprehension (fun x => lift (f x)) (map cols l) w = (Ok (map g l), w).
Proof.
  intros H. induction l as [|r l IH]; simpl.
  - reflexivity.
  - unfold bind, lift at 1. rewrite H, IH. reflexivity.
Qed.

(** The shape of the reads that build records: when the storage runs the
    statement, the result is one record per row. *)
Lemma guarded_fetch_records {R B} fault q (cols : R -> tuple)
    (f : tuple -> result B) (g : R -> B) (l : list R) w :
  fault (Fetch q) (tables w) = None ->
  rows_of q (tables w) = map cols l ->
  (forall r, f (cols r) = Ok (g r)) ->
  fst (try_except
         (results <- fetch_results fault q ;;
          comprehension (fun row => lift (f row)) results)
         (fun _ => ret []) w)
  = Ok (map g l).
Proof.
  intros Hrun Hrows Hf. unfold try_except, bind.
  rewrite fetch_results_eq, Hrun, Hrows.
  rewrite (comprehension_of_rows cols f g l _ Hf). reflexivity.
Qed.

(** When the storage runs the statement, [get_publisher] returns one
    [Publisher] per stored publisher and [get_all_members] one [Member] per
    stored member, in storage order and with the columns as fields, and
    [list_all_loan] returns the eight columns of every stored loan. *)
Theorem full_table_reads fault w :
  (fault (Fetch select_publisher) (tables w) = None ->
   fst (Repository.get_publisher fault w)
   = Ok (map publisher_of_row (publisher (tables w)))) /\
  (fault (Fetch select_members) (tables w) = None ->
   fst (Repository.get_all_members fault w)
   = Ok (map member_of_row (members (tables w)))) /\
  (fault (Fetch select_loan) (tables w) = None ->
   fst (Repository.list_all_loan fault w)
   = Ok (map loan_columns (loan (tables w)))).
Proof.
  split; [|split]; intros Hrun.
  - apply guarded_fetch_records with (cols := publisher_columns);
      [assumption | reflexivity | reflexivity].
  - apply guarded_fetch_records with (cols := members_columns);
      [assumption | reflexivity | reflexivity].
  - unfold Repository.list_all_loan, try_except.
    rewrite fetch_results_eq, Hrun. reflexivity.
Qed.

(** The example library has one publisher, two members and two loans. *)
Lemma full_table_reads_witness :
  fst (Repository.get_publisher reachable session)
  = Ok [Publisher.mk (VInt 1) (VStr "Ace") (VStr "NY") (VStr "555") (VStr "ace@ny")] /\
  fst (Repository.get_all_members reachable session)
  = Ok [member_of_row ann; member_of_row bob] /\
  (exists l1 l2, fst (Repository.list_all_loan reachable session) = Ok [l1; l2]).
Proof.
  destruct (full_table_reads reachable session) as (Hp & Hm & Hl).
  refine (conj (Hp eq_refl) (conj (Hm eq_refl) _)).
  eexists. eexists. exact (Hl eq_refl).
Defined.

(** ** Books by author *)

Lemma in_books_of_author name t b :
  In b (books_of_author name t) <-> In b (book t) /\ written_by name t b.
Proof.
  unfold books_of_author, written_by. rewrite in_map_iff. split.
  - intros ([[b' ba] a] & <- & Hin). apply filter_In in Hin as [Hin Hname].
    apply in_inner_join in Hin as (Hin & Ha & Hon2).
    apply in_inner_join in Hin as (Hb & Hba & Hon1).
    cbn [fst snd] in *. split; [assumption|]. exists ba, a. auto.
  - intros (Hb & ba & a & Hba & Ha & Hon1 & Hon2 & Hname).
    exists (b, ba, a). split; [reflexivity|].
    apply filter_In. split; [|assumption].
    apply in_inner_join. split; [|auto].
    apply in_inner_join. auto.
Qed.

(** When the storage runs the statement, [get_books_by_author] returns the
    stored books that have an author row of the given name, each as a [Book]
    with the six columns as fields, and nothing else. *)
Theorem get_books_by_author_joined fault name w :
  fault (Fetch (select_books_by_author name)) (tables w) = None ->
  exists books,
    fst (Repository.get_books_by_author fault name w) = Ok books /\
    forall bk,
      In bk books <->
      exists b,
        In b (book (tables w)) /\ written_by name (tables w) b /\
        bk = book_of_row b.
Proof.
  intros Hrun. exists (map book_of_row (books_of_author name (tables w))). split.
  - apply guarded_fetch_records with (cols := book_columns);
      [assumption | reflexivity | reflexivity].
  - intros bk. rewrite in_map_iff. split.
    + intros (b & <- & Hb). apply in_books_of_author in Hb as [Hb Hw]. eauto.
    + intros (b & Hb & Hw & ->). exists b. split; [reflexivity|].
      apply in_books_of_author. auto.
Qed.

(** Herbert wrote Dune, and only Dune. *)
Lemma get_books_by_author_joined_witness :
  exists books,
    fst (Repository.get_books_by_author reachable (VStr "Herbert") session)
    = Ok books /\
    In (book_of_row dune) books /\ ~ In (book_of_row emma) books.
Proof.
  destruct (get_books_by_author_joined reachable (VStr "Herbert") session eq_refl)
    as (books & Hbooks & Hin).
  exists books. split; [exact Hbooks|]. split.
  - apply Hin. exists dune. split; [left; reflexivity|]. split; [|reflexivity].
    exists (mk_book_author (VInt 1) (VInt 10)), (mk_author (VInt 10) (VStr "Herbert")).
    repeat split; left; reflexivity.
  - intros H. apply Hin in H as (b & _ & (ba & a & Hba & _ & Hon & _) & Hb).
    destruct Hba as [<-|[]].
    destruct b as [i t s y g p]. injection Hb as <- <- <- <- <- <-.
    discriminate Hon.
Defined.



(** ** What the reads leave behind *)

Lemma guarded_fetch_records_eq {R B} fault q (cols : R -> tuple)
    (f : tuple -> result B) (g : R -> B) (l : list R) w :
  rows_of q (tables w) = map cols l ->
  (forall r, f (cols r) = Ok (g r)) ->
  try_except
    (results <- fetch_results fault q ;;
     comprehension (fun row => lift (f row)) results)
    (fun _ => ret []) w
  = (Ok (match fault (Fetch q) (tables w) with
         | Some _ => []
         | None => map g l
         end),
     mk_database (tables w) (issued w ++ [Fetch q])).
Proof.
  intros Hrows Hf. unfold try_except, bind. rewrite fetch_results_eq.
  destruct (fault (Fetch q) (tables w)); [reflexivity|].
  rewrite Hrows, (comprehension_of_rows cols f g l _ Hf). reflexivity.
Qed.

Lemma guarded_rows_eq fault q w :
  try_except (fetch_results fault q) (fun _ => ret []) w
  = (Ok (match fault (Fetch q) (tables w) with
         | Some _ => []
         | None => rows_of q (tables w)
         end),
     mk_database (tables w) (issued w ++ [Fetch q])).
Proof.
  unfold try_except. rewrite fetch_results_eq.
  destruct (fault (Fetch q) (tables w)); reflexivity.
Qed.

Lemma get_books_by_author_eq fault name w :
  Repository.get_books_by_author fault name w
  = (Ok (match fault (Fetch (select_books_by_author name)) (tables w) with
         | Some _ => []
         | None => map book_of_row (books_of_author name (tables w))
         end),
     mk_database (tables w) (issued w ++ [Fetch (select_books_by_author name)])).
Proof.
  apply guarded_fetch_records_eq with (cols := book_columns); reflexivity.
Qed.

Lemma fetchall_books_eq fault w :
  Repository.fetchall_books fault w
  = (Ok [], mk_database (tables w) (issued w ++ [Fetch select_books_with_author])).
Proof.
  unfold Repository.fetchall_books, try_except, bind.
  rewrite fetch_results_eq.
  destruct (fault _ _) as [e|]; [reflexivity|].
  destruct (rows_of select_books_with_author (tables w)) as [|row rows];
    [reflexivity|].
  destruct (book_of_joined_row_raises row
              (mk_database (tables w) (issued w ++ [Fetch select_books_with_author])))
    as [e He].
  rewrite (comprehension_raises _ _ _ _ _ He). reflexivity.
Qed.

Lemma list_all_members_by_book_full_eq fault name w :
  Repository.list_all_members_by_book fault name w
  = match fst (Repository.list_book_by_name fault name w) with
    | Ok (Some found) =>
        (Ok (match fault (Fetch (select_members_by_book (Book.id found))) (tables w) with
             | Some _ => []
             | None =>
                 map borrower_columns (borrowers_of_book (Book.id found) (tables w))
             end),
         mk_database (tables w)
           (issued w ++ [Fetch (select_book_by_title name);
                         Fetch (select_members_by_book (Book.id found))]))
    | _ =>
        (Ok [],
         mk_database (tables w) (issued w ++ [Fetch (select_book_by_title name)]))
    end.
Proof.
  unfold Repository.list_all_members_by_book, bind.
  rewrite list_book_by_name_eq. cbn [fst].
  destruct (match fault (Fetch (select_book_by_title name)) (tables w) with
            | Some _ => None
            | None => option_map book_of_row (first_titled name (tables w))
            end) as [found|]; [|reflexivity].
  rewrite guarded_rows_eq. cbn [tables issued rows_of].
  rewrite <- app_assoc. reflexivity.
Qed.

(** No read operation of the gateway changes a table, whether the storage
    runs its statement or refuses it. *)
Theorem gateway_reads_change_no_table fault :
  reads_only (Repository.fetchall_books fault) /\
  (forall name, reads_only (Repository.list_book_by_name fault name)) /\
  (forall name, reads_only (Repository.get_books_by_author fault name)) /\
  (forall name, reads_only (Repository.find_books_by_author_name fault name)) /\
  reads_only (Repository.get_publisher fault) /\
  reads_only (Repository.get_all_members fault) /\
  reads_only (Repository.list_all_loan fault) /\
  (forall name, reads_only (Repository.list_all_members_by_book fault name)) /\
  reads_only (Repository.list_members_borrowed_at_least_one_book fault).
Proof.
  repeat match goal with |- _ /\ _ => split end; intros; intros w.
  - rewrite fetchall_books_eq. reflexivity.
  - rewrite list_book_by_name_eq. reflexivity.
  - rewrite get_books_by_author_eq. reflexivity.
  - unfold Repository.find_books_by_author_name, try_except, bind.
    rewrite fetch_results_eq. destruct (fault _ _); [reflexivity|].
    cbn [rows_of].
    destruct (books_of_author name (tables w)) as [|b bs]; reflexivity.
  - unfold Repository.get_publisher.
    rewrite guarded_fetch_records_eq
      with (cols := publisher_columns) (g := publisher_of_row)
           (l := publisher (tables w)); reflexivity.
  - unfold Repository.get_all_members.
    rewrite guarded_fetch_records_eq
      with (cols := members_columns) (g := member_of_row)
           (l := members (tables w)); reflexivity.
  - unfold Repository.list_all_loan. rewrite guarded_rows_eq. reflexivity.
  - rewrite list_all_members_by_book_full_eq.
    destruct (fst (Repository.list_book_by_name fault name w)) as [[found|]|];
      reflexivity.
  - unfold Repository.list_members_borrowed_at_least_one_book.
    rewrite guarded_rows_eq. reflexivity.
Qed.

(** [list_all_members_by_book] always sends the title query, and sends the
    join query, with the id of the book found, only when the title resolved:
    for a title that does not resolve, no join query reaches the storage. *)
Theorem list_all_members_by_book_statements fault name w :
  issued (snd (Repository.list_all_members_by_book fault name w))
  = (issued w
     ++ Fetch (select_book_by_title name)
        :: match fst (Repository.list_book_by_name fault name w) with
           | Ok (Some found) => [Fetch (select_members_by_book (Book.id found))]
           | _ => []
           end)%list.
Proof.
  rewrite list_all_members_by_book_full_eq.
  destruct (fst (Repository.list_book_by_name fault name w)) as [[found|]|];
    reflexivity.
Qed.

(** ** The query controller *)

Lemma try_except_not_taken {A} (m : M A) (handler : exn -> M A) w v :
  fst (m w) = Ok v -> try_except m handler w = m w.
Proof.
  unfold try_except. destruct (m w) as [[a|e] w']; cbn [fst]; intros H.
  - reflexivity.
  - discriminate H.
Qed.

(** The gateway's reads never raise, so the handlers of the controllers
    around them are never taken: each controller method returns what the
    gateway method returns and leaves the same state. *)
Theorem controllers_pass_the_gateway_through fault w :
  QueryController.list_all_publisher fault w = Repository.get_publisher fault w /\
  QueryController.get_all_members fault w = Repository.get_all_members fault w /\
  (forall name,
      QueryController.list_all_members_by_book fault name w
      = Repository.list_all_members_by_book fault name w) /\
  QueryController.get_all_loan fault w = Repository.list_all_loan fault w /\
  QueryController.list_members_borrowed_at_least_one_book fault w
  = Repository.list_members_borrowed_at_least_one_book fault w /\
  BookController.getall fault w = Repository.fetchall_books fault w.
Proof.
  repeat match goal with |- _ /\ _ => split end; intros.
  - destruct (try_except_returns
                (results <- fetch_results fault select_publisher ;;
                 comprehension (fun row => lift (Publisher.init row [])) results)
                [] w) as [v Hv].
    exact (try_except_not_taken _ _ _ _ Hv).
  - destruct (try_except_returns
                (results <- fetch_results fault select_members ;;
                 comprehension (fun row => lift (Member.init row [])) results)
                [] w) as [v Hv].
    exact (try_except_not_taken _ _ _ _ Hv).
  - eapply try_except_not_taken. apply list_all_members_by_book_eq.
  - destruct (try_except_returns (fetch_results fault select_loan) [] w) as [v Hv].
    exact (try_except_not_taken _ _ _ _ Hv).
  - destruct (try_except_returns
                (fetch_results fault select_distinct_members_with_loan) [] w)
      as [v Hv].
    exact (try_except_not_taken _ _ _ _ Hv).
  - eapply try_except_not_taken. apply fetchall_books_returns_nothing.
Qed.


(** ** Keys under the writes *)

Lemma sql_eq_true_eq a b : sql_eq a b = true -> a = b.
Proof.
  destruct a as [|x|s], b as [|y|s']; simpl; intros H; try discriminate H.
  - apply Z.eqb_eq in H. subst. reflexivity.
  - apply String.eqb_eq in H. subst. reflexivity.
Qed.

(** The tables that a write leaves, whether it returns or raises. *)
Lemma guarded_execute_tables fault c msg w :
  tables (snd (try_except (execute_query fault c)
                 (fun _ => raise (RuntimeError msg)) w))
  = match fault (Execute c) (tables w) with
    | Some _ => tables w
    | None => apply c (tables w)
    end.
Proof. rewrite guarded_execute. reflexivity. Qed.

Lemma update_keeps_keys title isbn pub_year genre_id publisher_id book_id t :
  map b_book_id
    (book (apply (update_book_set title isbn pub_year genre_id publisher_id book_id) t))
  = map b_book_id (book t).
Proof.
  cbn [apply book set_book]. rewrite map_map. apply map_ext.
  intros b. destruct (sql_eq (b_book_id b) book_id); reflexivity.
Qed.

Lemma delete_filters_keys book_id t :
  map b_book_id (book (apply (delete_book book_id) t))
  = filter (fun k => negb (sql_eq k book_id)) (map b_book_id (book t)).
Proof.
  cbn [apply book set_book]. induction (book t) as [|b l IH]; simpl.
  - reflexivity.
  - destruct (sql_eq (b_book_id b) book_id); simpl; rewrite IH; reflexivity.
Qed.

(** [update_book] never changes the key of a row, nor the order of the keys;
    [delete_book_by_id] only removes keys; so neither makes two rows share a
    key, whether the storage runs the statement or refuses it. *)
Theorem update_and_delete_keep_the_keys fault w :
  (forall bk,
      map b_book_id (book (tables (snd (Repository.update_book fault bk w))))
      = map b_book_id (book (tables w))) /\
  (forall book_id,
      incl (map b_book_id
              (book (tables (snd (Repository.delete_book_by_id fault book_id w)))))
        (map b_book_id (book (tables w)))) /\
  (distinct_keys (tables w) ->
   (forall bk, distinct_keys (tables (snd (Repository.update_book fault bk w)))) /\
   (forall book_id,
       distinct_keys (tables (snd (Repository.delete_book_by_id fault book_id w))))).
Proof.
  assert (Hupd : forall bk,
             map b_book_id (book (tables (snd (Repository.update_book fault bk w))))
             = map b_book_id (book (tables w))).
  { intros bk. unfold Repository.update_book. rewrite guarded_execute_tables.
    destruct (fault _ _); [reflexivity | apply update_keeps_keys]. }
  assert (Hdel : forall book_id,
             map b_book_id
               (book (tables (snd (Repository.delete_book_by_id fault book_id w))))
             = map b_book_id (book (tables w)) \/
             map b_book_id
               (book (tables (snd (Repository.delete_book_by_id fault book_id w))))
             = filter (fun k => negb (sql_eq k book_id))
                 (map b_book_id (book (tables w)))).
  { intros book_id. unfold Repository.delete_book_by_id.
    rewrite guarded_execute_tables.
    destruct (fault _ _); [left; reflexivity | right; apply delete_filters_keys]. }
  split; [exact Hupd|]. split.
  - intros book_id. destruct (Hdel book_id) as [-> | ->].
    + apply incl_refl.
    + apply incl_filter.
  - intros Hkeys. split.
    + intros bk. unfold distinct_keys. rewrite Hupd. exact Hkeys.
    + intros book_id. unfold distinct_keys.
      destruct (Hdel book_id) as [-> | ->].
      * exact Hkeys.
      * apply NoDup_filter. exact Hkeys.
Qed.

Lemma library_distinct_keys : distinct_keys library.
Proof.
  unfold distinct_keys. cbn.
  repeat constructor; cbn; intros H;
    repeat match goal with H : _ \/ _ |- _ => destruct H as [H|H] end;
    try discriminate H; assumption.
Defined.

(** The keys 1 and 2 of the example library stay distinct under an update of
    book 2 and under a delete of book 1. *)
Lemma update_and_delete_keep_the_keys_witness :
  distinct_keys
    (tables (snd (Repository.update_book reachable
                    (Book.mk (VInt 2) (VStr "Emma, 2nd ed.") (VStr "223")
                       (VInt 1816) (VInt 1) (VInt 2)) session))) /\
  distinct_keys
    (tables (snd (Repository.delete_book_by_id reachable (VInt 1) session))).
Proof.
  destruct (update_and_delete_keep_the_keys reachable session) as (_ & _ & H).
  destruct (H library_distinct_keys) as [Hupd Hdel].
  split; [apply Hupd | apply Hdel].
Defined.




(** ** Writes followed by reads or writes *)

Lemma book_of_row_of_book bk : book_of_row (row_of_book bk) = bk.
Proof. destruct bk. reflexivity. Qed.

Lemma first_titled_updated bk k title l :
  Book.id bk = VInt k -> Book.title bk = VStr title ->
  (exists b, In b l /\ b_book_id b = VInt k) ->
  (forall b, In b l -> b_book_id b <> VInt k -> b_title b <> VStr title) ->
  find (fun b => sql_eq (b_title b) (VStr title))
    (map (fun b =>
            if sql_eq (b_book_id b) (Book.id bk)
            then overwrite (Book.title bk) (Book.isbn bk) (Book.pub_year bk)
                   (Book.genre_id bk) (Book.publisher_id bk) b
            else b) l)
  = Some (row_of_book bk).
Proof.
  intros Hid Htitle. rewrite Hid.
  induction l as [|b l IH]; intros (b0 & Hin & Hkey) Hothers.
  - contradiction.
  - cbn [map find].
    destruct (sql_eq (b_book_id b) (VInt k)) eqn:E.
    + apply sql_eq_VInt in E.
      assert (Hrow : overwrite (Book.title bk) (Book.isbn bk) (Book.pub_year bk)
                       (Book.genre_id bk) (Book.publisher_id bk) b
                     = row_of_book bk).
      { unfold overwrite, row_of_book. rewrite Hid, E. reflexivity. }
      assert (Ht : sql_eq (b_title (row_of_book bk)) (VStr title) = true).
      { apply sql_eq_VStr. exact Htitle. }
      rewrite Hrow, Ht. reflexivity.
    + apply sql_eq_VInt_false in E.
      assert (Hb : sql_eq (b_title b) (VStr title) = false).
      { apply sql_eq_VStr_false. apply Hothers; [left; reflexivity | exact E]. }
      rewrite Hb. apply IH.
      * destruct Hin as [->|Hin]; [contradiction|]. eauto.
      * intros b' Hb'. apply Hothers. right. exact Hb'.
Qed.

(** When a row with the book's id is stored, no row under another key has the
    book's title, and the storage runs both statements, fetching by title
    after [update_book] returns the very book that was passed to the update. *)
Theorem update_book_then_list_book_by_name fault bk k title w w' :
  Book.id bk = VInt k -> Book.title bk = VStr title ->
  (exists b, In b (book (tables w)) /\ b_book_id b = VInt k) ->
  (forall b, In b (book (tables w)) -> b_book_id b <> VInt k ->
             b_title b <> VStr title) ->
  Repository.update_book fault bk w = (Ok tt, w') ->
  fault (Fetch (select_book_by_title (VStr title))) (tables w') = None ->
  fst (Repository.list_book_by_name fault (VStr title) w') = Ok (Some bk).
Proof.
  intros Hid Htitle Hstored Hothers Hupd Hrun.
  apply guarded_execute_ok in Hupd as [_ ->].
  rewrite list_book_by_name_eq, Hrun. cbn [fst tables].
  unfold first_titled. cbn [apply book set_book].
  rewrite (first_titled_updated bk k title _ Hid Htitle Hstored Hothers).
  cbn [option_map]. rewrite book_of_row_of_book. reflexivity.
Qed.

(** Renaming book 2 of the example library and asking for the new title. *)
Lemma update_book_then_list_book_by_name_witness :
  fst (Repository.list_book_by_name reachable (VStr "Emma, 2nd ed.")
         (snd (Repository.update_book reachable
                 (Book.mk (VInt 2) (VStr "Emma, 2nd ed.") (VStr "223") (VInt 1816)
                    (VInt 1) (VInt 2)) session)))
  = Ok (Some (Book.mk (VInt 2) (VStr "Emma, 2nd ed.") (VStr "223") (VInt 1816)
                (VInt 1) (VInt 2))).
Proof.
  apply (update_book_then_list_book_by_name reachable
           (Book.mk (VInt 2) (VStr "Emma, 2nd ed.") (VStr "223") (VInt 1816)
              (VInt 1) (VInt 2)) 2 "Emma, 2nd ed." session).
  - reflexivity.
  - reflexivity.
  - exists emma. split; [right; left; reflexivity | reflexivity].
  - intros b [<-|[<-|[]]] Hkey; [discriminate | contradiction Hkey; reflexivity].
  - reflexivity.
  - reflexivity.
Defined.

Lemma filter_filter_same {A} (f : A -> bool) l :
  filter f (filter f l) = filter f l.
Proof.
  induction l as [|x l IH]; simpl; [reflexivity|].
  destruct (f x) eqn:E; simpl; [rewrite E, IH|]; auto.
Qed.

Lemma filter_keeps_all {A} (f : A -> bool) l :
  (forall x, In x l -> f x = true) -> filter f l = l.
Proof.
  induction l as [|x l IH]; simpl; intros H; [reflexivity|].
  rewrite (H x) by (left; reflexivity). rewrite IH; [reflexivity|].
  intros y Hy. apply H. right. exact Hy.
Qed.

(** Deleting an id that no stored row has leaves every table as it was, and
    deleting the same id a second time changes nothing more. *)
Theorem delete_book_by_id_absent_or_repeated fault book_id w w1 :
  Repository.delete_book_by_id fault book_id w = (Ok tt, w1) ->
  ((forall b, In b (book (tables w)) -> sql_eq (b_book_id b) book_id = false) ->
   tables w1 = tables w) /\
  (forall w2,
      Repository.delete_book_by_id fault book_id w1 = (Ok tt, w2) ->
      tables w2 = tables w1).
Proof.
  intros Hdel. apply guarded_execute_ok in Hdel as [_ ->]. cbn [tables apply]. split.
  - intros Habsent. rewrite filter_keeps_all; [apply set_book_same|].
    intros b Hb. rewrite (Habsent b Hb). reflexivity.
  - intros w2 Hdel2. apply guarded_execute_ok in Hdel2 as [_ ->].
    cbn [tables apply book set_book]. rewrite filter_filter_same.
    destruct (tables w). reflexivity.
Qed.

Lemma delete_book_by_id_absent_or_repeated_witness :
  tables (snd (Repository.delete_book_by_id reachable (VInt 9) session)) = library /\
  tables (snd (Repository.delete_book_by_id reachable (VInt 1)
                 (snd (Repository.delete_book_by_id reachable (VInt 1) session))))
  = tables (snd (Repository.delete_book_by_id reachable (VInt 1) session)).
Proof.
  split.
  - apply (proj1 (delete_book_by_id_absent_or_repeated reachable (VInt 9) session
                    _ eq_refl)).
    intros b [<-|[<-|[]]]; reflexivity.
  - apply (proj2 (delete_book_by_id_absent_or_repeated reachable (VInt 1) session
                    _ eq_refl)).
    reflexivity.
Defined.



(** When no stored row has the key that the storage is about to assign,
    inserting a book and then deleting the assigned key gives the book table
    back, row for row. *)
Theorem add_book_then_delete_book_by_id fault bk w w1 w2 :
  (forall b, In b (book (tables w)) -> b_book_id b <> VInt (book_seq (tables w))) ->
  Repository.add_book fault bk w = (Ok tt, w1) ->
  Repository.delete_book_by_id fault (VInt (book_seq (tables w))) w1 = (Ok tt, w2) ->
  book (tables w2) = book (tables w).
Proof.
  intros Hfresh Hadd Hdel.
  apply guarded_execute_ok in Hadd as [_ ->].
  apply guarded_execute_ok in Hdel as [_ ->].
  cbn [tables apply book set_book set_book_seq].
  rewrite filter_app. cbn [filter b_book_id sql_eq].
  rewrite Z.eqb_refl. cbn [negb]. rewrite app_nil_r.
  apply filter_keeps_all. intros b Hb.
  apply negb_true_iff, sql_eq_VInt_false, Hfresh, Hb.
Qed.

Lemma add_book_then_delete_book_by_id_witness :
  book (tables (snd (Repository.delete_book_by_id reachable (VInt 3)
                       (snd (Repository.add_book reachable persuasion session)))))
  = [dune; emma].
Proof.
  apply (add_book_then_delete_book_by_id reachable persuasion session
           (snd (Repository.add_book reachable persuasion session))
           (snd (Repository.delete_book_by_id reachable (VInt 3)
                   (snd (Repository.add_book reachable persuasion session))))).
  - intros b [<-|[<-|[]]]; discriminate.
  - reflexivity.
  - reflexivity.
Defined.

(** ** The rows of the borrowers query *)

(** Every row that [list_all_members_by_book] returns is made of the names of
    a stored member, the issue, due and return dates of a loan of that member,
    and the title of a stored book of which the loan's copy is a copy; when
    the keys of the book table are distinct, that title is the title asked
    for. *)
Theorem list_all_members_by_book_rows fault title w rows row :
  fst (Repository.list_all_members_by_book fault (VStr title) w) = Ok rows ->
  In row rows ->
  exists m l bc b,
    In m (members (tables w)) /\ In l (loan (tables w)) /\
    In bc (book_copy (tables w)) /\ In b (book (tables w)) /\
    sql_eq (m_member_id m) (l_member_id l) = true /\
    sql_eq (l_copy_id l) (bc_copy_id bc) = true /\
    sql_eq (bc_book_id bc) (b_book_id b) = true /\
    row = [m_first_name m; m_last_name m; b_title b; l_issue_date l; l_due_date l;
           l_return_date l] /\
    (distinct_keys (tables w) -> b_title b = VStr title).
Proof.
  rewrite list_all_members_by_book_eq. intros Hrows Hin.
  injection Hrows as <-.
  destruct (fault (Fetch (select_book_by_title (VStr title))) (tables w));
    [contradiction|].
  destruct (first_titled (VStr title) (tables w)) as [b0|] eqn:Hfirst;
    [|contradiction].
  destruct (fault (Fetch (select_members_by_book (b_book_id b0))) (tables w));
    [contradiction|].
  apply in_map_iff in Hin as ([[[m l] bc] b] & <- & Hin).
  apply in_borrowers_of_book in Hin
    as (Hm & Hl & Hbc & Hb & Hon1 & Hon2 & Hon3 & Hkey).
  exists m, l, bc, b. repeat (split; [assumption|]). split; [reflexivity|].
  intros Hdistinct. apply find_some in Hfirst as [Hb0 Htitle].
  apply sql_eq_true_eq in Hkey.
  rewrite (key_injective b_book_id _ b b0 Hdistinct Hb Hb0 Hkey).
  apply sql_eq_VStr. exact Htitle.
Qed.

Lemma list_all_members_by_book_rows_witness :
  exists m l bc b,
    In m (members library) /\ In l (loan library) /\
    In bc (book_copy library) /\ In b (book library) /\
    sql_eq (m_member_id m) (l_member_id l) = true /\
    sql_eq (l_copy_id l) (bc_copy_id bc) = true /\
    sql_eq (bc_book_id bc) (b_book_id b) = true /\
    [VStr "Ann"; VStr "Lee"; VStr "Dune"; VStr "2024-01-01"; VStr "2024-01-15"; VNone]
    = [m_first_name m; m_last_name m; b_title b; l_issue_date l; l_due_date l;
       l_return_date l] /\
    (distinct_keys library -> b_title b = VStr "Dune").
Proof.
  apply (list_all_members_by_book_rows reachable "Dune" session
           [[VStr "Ann"; VStr "Lee"; VStr "Dune"; VStr "2024-01-01";
             VStr "2024-01-15"; VNone];
            [VStr "Ann"; VStr "Lee"; VStr "Dune"; VStr "2024-02-01";
             VStr "2024-02-15"; VNone]]).
  - reflexivity.
  - left. reflexivity.
Defined.

(** ** Records from positional and keyword arguments *)

Lemma filled_positional {A} (params : list string) (args : list A) :
  (List.length args <= List.length params)%nat ->
  List.length (filled (positional params args)) = List.length args.
Proof.
  revert args; induction params as [|p ps IH]; intros args Hle.
  - destruct args; [reflexivity | simpl in Hle; lia].
  - destruct args as [|a args]; simpl.
    + apply (IH []). simpl. lia.
    + rewrite IH; [reflexivity | simpl in Hle; lia].
Qed.

Lemma set_keyword_filled {A} k (v : A) s s' :
  set_keyword k v s = Ok s' ->
  List.length (filled s') = S (List.length (filled s)).
Proof.
  revert s'; induction s as [|[p cur] rest IH]; intros s' H; simpl in H.
  - discriminate.
  - destruct (String.eqb p k).
    + destruct cur; [discriminate|]. injection H as <-. reflexivity.
    + destruct (set_keyword k v rest) as [rest'|]; [|discriminate].
      injection H as <-. destruct cur; simpl; rewrite (IH rest' eq_refl); reflexivity.
Qed.

Lemma set_keyword_known {A} k (v : A) s s' :
  set_keyword k v s = Ok s' -> In k (map fst s).
Proof.
  revert s'; induction s as [|[p cur] rest IH]; intros s' H; simpl in H.
  - discriminate.
  - destruct (String.eqb_spec p k) as [->|_].
    + left. reflexivity.
    + destruct (set_keyword k v rest) as [rest'|]; [|discriminate].
      right. apply (IH rest' eq_refl).
Qed.

Lemma set_keywords_filled {A} (kwargs : list (string * A)) s s' :
  set_keywords kwargs s = Ok s' ->
  List.length (filled s') = (List.length kwargs + List.length (filled s))%nat /\
  (forall k, In k (map fst kwargs) -> In k (map fst s)).
Proof.
  revert s; induction kwargs as [|[k v] kw IH]; intros s H; simpl in H.
  - injection H as <-. split; [reflexivity | intros k []].
  - destruct (set_keyword k v s) as [s1|] eqn:E; [|discriminate].
    destruct (IH _ H) as [Hlen Hnames]. split.
    + rewrite Hlen, (set_keyword_filled _ _ _ _ E). simpl. lia.
    + intros k' [<-|Hin].
      * eapply set_keyword_known; eassumption.
      * rewrite <- (set_keyword_names _ _ _ _ E). apply Hnames, Hin.
Qed.

(** A call binds only when it gives one argument per parameter, positional
    and keyword arguments together, and every keyword names a parameter. *)
Lemma bind_arguments_counts {A} params (args : list A) kwargs vs :
  bind_arguments params args kwargs = Ok vs ->
  (List.length args + List.length kwargs = List.length params)%nat /\
  (forall k, In k (map fst kwargs) -> In k params).
Proof.
  unfold bind_arguments.
  destruct (set_keywords kwargs (positional params args)) as [s|] eqn:E;
    [|discriminate].
  destruct (Nat.ltb_spec (List.length params) (List.length args)) as [|Hle];
    [discriminate|].
  destruct (missing s) eqn:Em; [|discriminate]. intros _.
  destruct (set_keywords_filled _ _ _ E) as [Hlen Hnames]. split.
  - rewrite (filled_positional _ _ Hle) in Hlen.
    rewrite (filled_length _ Em), (set_keywords_length _ _ _ E),
      positional_length in Hlen. lia.
  - intros k Hk. rewrite <- (positional_names params args). apply Hnames, Hk.
Qed.

(** A [Book] or a [Member] is built only from six arguments and a
    [Publisher] only from five, positional and keyword arguments counted
    together, and only when every keyword is the name of a field; any other
    call raises. *)
Theorem dataclass_needs_one_argument_per_field :
  (forall args kwargs bk,
      Book.init args kwargs = Ok bk ->
      (List.length args + List.length kwargs = 6)%nat /\
      (forall k, In k (map fst kwargs) -> In k Book.fields)) /\
  (forall args kwargs p,
      Publisher.init args kwargs = Ok p ->
      (List.length args + List.length kwargs = 5)%nat /\
      (forall k, In k (map fst kwargs) -> In k Publisher.fields)) /\
  (forall args kwargs m,
      Member.init args kwargs = Ok m ->
      (List.length args + List.length kwargs = 6)%nat /\
      (forall k, In k (map fst kwargs) -> In k Member.fields)).
Proof.
  split; [|split]; intros args kwargs r H.
  - unfold Book.init in H.
    destruct (bind_arguments Book.fields args kwargs) as [vs|] eqn:E;
      [|discriminate H].
    exact (bind_arguments_counts _ _ _ _ E).
  - unfold Publisher.init in H.
    destruct (bind_arguments Publisher.fields args kwargs) as [vs|] eqn:E;
      [|discriminate H].
    exact (bind_arguments_counts _ _ _ _ E).
  - unfold Member.init in H.
    destruct (bind_arguments Member.fields args kwargs) as [vs|] eqn:E;
      [|discriminate H].
    exact (bind_arguments_counts _ _ _ _ E).
Qed.

(** Two positional and four keyword arguments, the keywords out of order. *)
Lemma dataclass_needs_one_argument_per_field_witness :
  Book.init [VInt 1; VStr "Dune"]
    [("publisher_id", VInt 1); ("isbn", VStr "111"); ("genre_id", VInt 1);
     ("pub_year", VInt 1965)]
  = Ok (book_of_row dune) /\
  (2 + 4 = 6)%nat /\
  (forall k,
      In k ["publisher_id"; "isbn"; "genre_id"; "pub_year"] -> In k Book.fields).
Proof.
  split; [reflexivity|].
  exact (proj1 dataclass_needs_one_argument_per_field
           [VInt 1; VStr "Dune"]
           [("publisher_id", VInt 1); ("isbn", VStr "111"); ("genre_id", VInt 1);
            ("pub_year", VInt 1965)]
           (book_of_row dune) eq_refl).
Defined.
